(** * Verification of the User resource of my-fastapi-project

    Shallow embedding of [src/main.py] (the FastAPI handlers [health_check],
    [get_users], [get_user], [create_user], [update_user], [delete_user]) and
    of the pydantic schemas of [src/schemas.py].

    The relational store is the [users] table; a request runs in its own
    session: writes go to the transaction's working copy, [db.commit()]
    publishes it, [db.rollback()] discards it, and closing the session at the
    end of the request discards whatever was not committed.  The SQL
    statements the handlers send are embedded as a small statement syntax
    executed against the working copy, so the WHERE clauses the code builds
    can be read off the definitions. *)

From Stdlib Require Import String Ascii List ZArith Bool Lia Sorting Permutation.
From Stdlib Require Import Mergesort Orders.
Import ListNotations.
Open Scope Z_scope.

(** ** Rows and the [users] table *)

Record row := mkRow {
  row_id : Z;
  row_username : string;
  row_email : string;
  row_created_at : option Z  (* timestamp, store assigned *)
}.

Record table := mkTable {
  rows : list row;
  next_id : Z;   (* the SERIAL sequence of [users.id] *)
  clock : Z      (* value of [now()] used for [created_at] *)
}.

(** ORDER BY id: a merge sort on the id column. *)
Module RowIdOrder <: TotalLeBool.
Definition t := row.
Definition leb (a b : row) : bool := Z.leb (row_id a) (row_id b).
Definition leb_total : forall a1 a2, leb a1 a2 = true \/ leb a2 a1 = true.
Proof.
  intros a b; unfold leb.
  destruct (Z.le_ge_cases (row_id a) (row_id b)); [left|right]; apply Z.leb_le; lia.
Defined.
End RowIdOrder.

Module RowSort := Sort RowIdOrder.

Definition sort_by_id (l : list row) : list row := RowSort.sort l.

(** ** Case-insensitive LIKE ([ILIKE]) *)

Definition lower_ascii (c : ascii) : ascii :=
  let n := nat_of_ascii c in
  if (Nat.leb 65 n && Nat.leb n 90)%bool then ascii_of_nat (n + 32) else c.

Definition lower (s : string) : list ascii := map lower_ascii (list_ascii_of_string s).

(** PostgreSQL LIKE patterns: [%] matches any sequence, [_] any single
    character, a backslash makes the next character literal. *)
Fixpoint like (p s : list ascii) {struct p} : bool :=
  match p with
  | [] => match s with [] => true | _ => false end
  | c :: p' =>
      if Ascii.eqb c "%"%char then
        (fix go (s : list ascii) : bool :=
           like p' s || match s with [] => false | _ :: s' => go s' end) s
      else if Ascii.eqb c "_"%char then
        match s with [] => false | _ :: s' => like p' s' end
      else if Ascii.eqb c "\"%char then
        match p' with
        | [] => match s with [] => false | c' :: s' => Ascii.eqb c c' && like p' s' end
        | e :: p'' => match s with [] => false | c' :: s' => Ascii.eqb e c' && like p'' s' end
        end
      else match s with [] => false | c' :: s' => Ascii.eqb c c' && like p' s' end
  end.

Definition ilike (value pattern : string) : bool := like (lower pattern) (lower value).

(** ** SQL statements sent by the handlers *)

Inductive column := Col_username | Col_email.

Definition col_value (c : column) (r : row) : string :=
  match c with Col_username => row_username r | Col_email => row_email r end.

Inductive cond :=
  | CIlike (c : column) (param : string)     (* c ILIKE :param *)
  | CEq (c : column) (param : string)        (* c = :param *)
  | CIdEq (param : Z)                        (* id = :id *)
  | CIdNe (param : Z)                        (* id != :id *)
  | CAnd (a b : cond)
  | COr (a b : cond).

Fixpoint eval_cond (w : cond) (r : row) : bool :=
  match w with
  | CIlike c p => ilike (col_value c r) p
  | CEq c v => String.eqb (col_value c r) v
  | CIdEq i => Z.eqb (row_id r) i
  | CIdNe i => negb (Z.eqb (row_id r) i)
  | CAnd a b => eval_cond a r && eval_cond b r
  | COr a b => eval_cond a r || eval_cond b r
  end.

Definition where_ (w : option cond) (l : list row) : list row :=
  match w with None => l | Some c => filter (eval_cond c) l end.

Inductive stmt :=
  | SSelect (w : option cond) (order_by_id : bool) (limit offset : option Z)
      (* SELECT * FROM users [WHERE w] [ORDER BY id] [LIMIT] [OFFSET] *)
  | SCount (w : option cond)                 (* SELECT COUNT( * ) FROM users [WHERE w] *)
  | SInsert (username email : string)        (* INSERT ... RETURNING ... *)
  | SUpdate (id : Z) (sets : list (column * string))  (* UPDATE ... RETURNING ... *)
  | SDelete (id : Z)                         (* DELETE ... RETURNING id *)
  | SVersion.                                (* SELECT version() *)

Inductive qresult :=
  | QRows (rs : list row)
  | QScalar (z : Z)
  | QText (s : string).

(** ** The request session *)

Record session := mkSession {
  db_up : bool;              (* the server is reachable *)
  drop_returning : bool;     (* the driver hands back no RETURNING row *)
  committed : table;         (* what other requests see *)
  work : table               (* the open transaction's view *)
}.

Inductive detail :=
  | D_user_not_found                 (* "User not found" *)
  | D_user_id_not_found (id : Z)     (* f"User with id {user_id} not found" *)
  | D_create_exists                  (* user with this name or email already exists *)
  | D_create_failed                  (* could not create the user *)
  | D_create_error (msg : string)    (* error while creating the user: {e} *)
  | D_delete_failed                  (* "Failed to delete user" *)
  | D_delete_error (msg : string)    (* f"Error deleting user: {e}" *)
  | D_update_no_data                 (* "No data provided for update" *)
  | D_update_taken                   (* "Username or email already taken by another user" *)
  | D_update_failed                  (* "Failed to update user" *)
  | D_update_error (msg : string)    (* f"Error updating user: {e}" *)
  | D_fetch_error (msg : string)     (* f"Error fetching users: {e}" *)
  | D_str (msg : string).            (* str(e) *)

(** Errors pydantic reports for a request body: one entry per field. *)
Inductive error_type := Missing | StringType | ValueError.

Record verr := mkVerr { verr_loc : column; verr_type : error_type }.

Inductive exn :=
  | HTTPException (status_code : Z) (d : detail)
  | DBError (msg : string)
  | RequestValidationError (errors : list verr).   (* answered with 422 *)

Definition M (A : Type) : Type := session -> (exn + A) * session.

Definition ret {A} (a : A) : M A := fun s => (inr a, s).
Definition raise {A} (e : exn) : M A := fun s => (inl e, s).
Definition bind {A B} (m : M A) (k : A -> M B) : M B :=
  fun s => match m s with (inl e, s') => (inl e, s') | (inr a, s') => k a s' end.
Definition try_except {A} (m : M A) (h : exn -> M A) : M A :=
  fun s => match m s with (inl e, s') => h e s' | (inr a, s') => (inr a, s') end.

Notation "x <- m ;; k" := (bind m (fun x => k)) (at level 61, m at next level, right associativity).
Notation "m ;;; k" := (bind m (fun _ => k)) (at level 61, right associativity).

Definition get_session : M session := fun s => (inr s, s).
Definition set_work (t : table) : M unit :=
  fun s => (inr tt, mkSession (db_up s) (drop_returning s) (committed s) t).

Definition commit : M unit :=
  fun s => (inr tt, mkSession (db_up s) (drop_returning s) (work s) (work s)).
Definition rollback : M unit :=
  fun s => (inr tt, mkSession (db_up s) (drop_returning s) (committed s) (committed s)).

(** [nextval('users_id_seq')]: a sequence is not transactional, so the value
    it hands out is used up at once, for the transaction and for everyone
    else, and a rollback does not give it back. *)
Definition nextval : M Z :=
  fun s =>
    let bump t := mkTable (rows t) (next_id (work s) + 1) (clock t) in
    (inr (next_id (work s)),
     mkSession (db_up s) (drop_returning s) (bump (committed s)) (bump (work s))).

Open Scope string_scope.

(** Applying the SET clause of an UPDATE to one row. *)
Definition set_column (c : column) (v : string) (r : row) : row :=
  match c with
  | Col_username => mkRow (row_id r) v (row_email r) (row_created_at r)
  | Col_email => mkRow (row_id r) (row_username r) v (row_created_at r)
  end.

Definition apply_sets (sets : list (column * string)) (r : row) : row :=
  fold_left (fun r cv => set_column (fst cv) (snd cv) r) sets r.

Definition update_rows (i : Z) (sets : list (column * string)) (l : list row) : list row :=
  map (fun r => if Z.eqb (row_id r) i then apply_sets sets r else r) l.

(** [db.execute(stmt)]: runs one statement inside the open transaction.  A
    server that is down refuses every statement; a negative OFFSET or LIMIT
    is rejected by PostgreSQL (the OFFSET is checked first); an INSERT takes
    the next sequence value for [id] and the primary key rejects it when
    that value is already taken.  The store has no unique
    constraint on [username] or [email]. *)
Definition execute (st : stmt) : M qresult :=
  s <- get_session ;;
  if negb (db_up s) then raise (DBError "connection refused") else
  let t := work s in
  match st with
  | SSelect w ob lim off =>
      match off with
      | Some o => if Z.ltb o 0 then raise (DBError "OFFSET must not be negative") else ret tt
      | None => ret tt
      end ;;;
      match lim with
      | Some l => if Z.ltb l 0 then raise (DBError "LIMIT must not be negative") else ret tt
      | None => ret tt
      end ;;;
      let rs := where_ w (rows t) in
      let rs := if ob then sort_by_id rs else rs in
      let rs := match off with Some o => skipn (Z.to_nat o) rs | None => rs end in
      let rs := match lim with Some l => firstn (Z.to_nat l) rs | None => rs end in
      ret (QRows rs)
  | SCount w => ret (QScalar (Z.of_nat (length (where_ w (rows t)))))
  | SInsert u e =>
      i <- nextval ;;
      if existsb (fun r => Z.eqb (row_id r) i) (rows t)
      then raise (DBError "duplicate key value violates unique constraint users_pkey")
      else
        let r := mkRow i u e (Some (clock t)) in
        set_work (mkTable (rows t ++ [r]) (i + 1) (clock t)) ;;;
        ret (QRows (if drop_returning s then [] else [r]))
  | SUpdate i sets =>
      let rs' := update_rows i sets (rows t) in
      set_work (mkTable rs' (next_id t) (clock t)) ;;;
      ret (QRows (if drop_returning s then [] else filter (fun r => Z.eqb (row_id r) i) rs'))
  | SDelete i =>
      let gone := filter (fun r => Z.eqb (row_id r) i) (rows t) in
      set_work (mkTable (filter (fun r => negb (Z.eqb (row_id r) i)) (rows t)) (next_id t) (clock t)) ;;;
      ret (QRows (if drop_returning s then [] else gone))
  | SVersion => ret (QText "PostgreSQL 16")
  end.

Definition fetchall (q : qresult) : M (list row) :=
  match q with QRows rs => ret rs | _ => raise (DBError "result has no rows") end.
Definition fetchone (q : qresult) : M (option row) :=
  match q with QRows rs => ret (hd_error rs) | _ => raise (DBError "result has no rows") end.
Definition scalar_int (q : qresult) : M Z :=
  match q with QScalar z => ret z | _ => raise (DBError "not a scalar") end.
Definition scalar_text (q : qresult) : M string :=
  match q with QText v => ret v | _ => raise (DBError "not a scalar") end.

Definition exn_str (e : exn) : string :=
  match e with
  | DBError m => m
  | HTTPException _ _ => "HTTPException"
  | RequestValidationError _ => "RequestValidationError"
  end.

(** ** Pydantic schemas ([src/schemas.py]) after validation *)

Record user_create := mkUserCreate { uc_username : string; uc_email : string }.
Record user_update := mkUserUpdate { uu_username : option string; uu_email : option string }.

(** [created_at] as a handler answers it: [get_users] and [get_user] answer
    [str(row[3]) if row[3] else None], the text ['YYYY-MM-DD HH:MM:SS'] of
    the timestamp ([StampText]); [create_user] and [update_user] answer
    [row[3]] itself, a [datetime] the JSON encoder writes as
    ['YYYY-MM-DDTHH:MM:SS'] ([StampDatetime]). *)
Inductive stamp_out := StampText (ts : Z) | StampDatetime (ts : Z).

(** A user object as the handlers return it. *)
Record user_out := mkUserOut {
  out_id : Z; out_username : string; out_email : string; out_created_at : option stamp_out
}.

(** The dict built by [get_users] and [get_user]. *)
Definition shape (r : row) : user_out :=
  mkUserOut (row_id r) (row_username r) (row_email r) (option_map StampText (row_created_at r)).

(** The dict built by [create_user] and [update_user] from the RETURNING row. *)
Definition shape_returning (r : row) : user_out :=
  mkUserOut (row_id r) (row_username r) (row_email r) (option_map StampDatetime (row_created_at r)).

Record list_resp := mkListResp {
  lr_users : list user_out;
  lr_count : Z;
  lr_total : Z;
  lr_skip : Z;
  lr_limit : Z;
  lr_has_more : bool
}.

Inductive health_resp :=
  | Healthy (postgres_version : string)
  | Unhealthy (error : string).

(** ** The handlers of [src/main.py] *)

Definition health_check : M health_resp :=
  try_except
    (q <- execute SVersion ;; v <- scalar_text q ;; ret (Healthy v))
    (fun e => ret (Unhealthy (exn_str e))).

Definition get_users (skip limit : Z) (search : option string) : M list_resp :=
  try_except
    (let search_given := match search with Some q => negb (String.eqb q "") | None => false end in
     let pat := match search with Some q => "%" ++ q ++ "%" | None => "" end in
     let query_where :=
       if search_given then Some (COr (CIlike Col_username pat) (CIlike Col_email pat)) else None in
     q <- execute (SSelect query_where true (Some limit) (Some skip)) ;;
     rs <- fetchall q ;;
     let count_where :=
       if search_given then Some (COr (CIlike Col_username pat) (CIlike Col_email pat)) else None in
     q2 <- execute (SCount count_where) ;;
     total <- scalar_int q2 ;;
     let users := map shape rs in
     ret (mkListResp users (Z.of_nat (length users)) total skip limit
            (Z.ltb (skip + Z.of_nat (length users)) total)))
    (fun e => raise (HTTPException 500 (D_fetch_error (exn_str e)))).

(** The query-string defaults [skip: int = 0], [limit: int = 100]. *)
Definition get_users_request (skip limit : option Z) (search : option string) : M list_resp :=
  get_users (match skip with Some k => k | None => 0 end)
            (match limit with Some l => l | None => 100 end) search.

Definition get_user (user_id : Z) : M user_out :=
  try_except
    (q <- execute (SSelect (Some (CIdEq user_id)) false None None) ;;
     r <- fetchone q ;;
     match r with
     | None => raise (HTTPException 404 D_user_not_found)
     | Some row => ret (shape row)
     end)
    (fun e => match e with
              | HTTPException _ _ => raise e
              | e => raise (HTTPException 500 (D_str (exn_str e)))
              end).

Definition create_user (user : user_create) : M user_out :=
  try_except
    (q <- execute (SSelect (Some (COr (CEq Col_username (uc_username user))
                                       (CEq Col_email (uc_email user)))) false None None) ;;
     existing <- fetchone q ;;
     match existing with
     | Some _ => raise (HTTPException 400 D_create_exists)
     | None =>
         result <- execute (SInsert (uc_username user) (uc_email user)) ;;
         commit ;;;
         r <- fetchone result ;;
         match r with
         | None => raise (HTTPException 500 D_create_failed)
         | Some row => ret (shape_returning row)
         end
     end)
    (fun e => match e with
              | HTTPException _ _ => raise e
              | e => rollback ;;; raise (HTTPException 500 (D_create_error (exn_str e)))
              end).

Definition delete_user (user_id : Z) : M Z :=
  try_except
    (q <- execute (SSelect (Some (CIdEq user_id)) false None None) ;;
     existing <- fetchone q ;;
     match existing with
     | None => raise (HTTPException 404 (D_user_id_not_found user_id))
     | Some _ =>
         result <- execute (SDelete user_id) ;;
         commit ;;;
         deleted <- fetchone result ;;
         match deleted with
         | Some _ => ret user_id
         | None => raise (HTTPException 500 D_delete_failed)
         end
     end)
    (fun e => match e with
              | HTTPException _ _ => raise e
              | e => rollback ;;; raise (HTTPException 500 (D_delete_error (exn_str e)))
              end).

(** [update_data] is a dict whose keys keep insertion order. *)
Definition has_key (k : column) (d : list (column * string)) : bool :=
  existsb (fun kv => match fst kv, k with
                     | Col_username, Col_username | Col_email, Col_email => true
                     | _, _ => false end) d.

Fixpoint lookup_key (k : column) (d : list (column * string)) : string :=
  match d with
  | [] => ""
  | (k', v) :: d' =>
      match k', k with
      | Col_username, Col_username | Col_email, Col_email => v
      | _, _ => lookup_key k d'
      end
  end.

(** [" OR ".join(conditions)]; an empty join leaves [WHERE] without a
    condition, which the server rejects. *)
Fixpoint join_or (cs : list cond) : option cond :=
  match cs with
  | [] => None
  | [c] => Some c
  | c :: cs' => match join_or cs' with Some d => Some (COr c d) | None => Some c end
  end.

Definition update_user (user_id : Z) (user_update : user_update) : M user_out :=
  try_except
    (q <- execute (SSelect (Some (CIdEq user_id)) false None None) ;;
     existing <- fetchone q ;;
     match existing with
     | None => raise (HTTPException 404 (D_user_id_not_found user_id))
     | Some _ =>
         let update_data :=
           app (match uu_username user_update with Some u => [(Col_username, u)] | None => [] end)
               (match uu_email user_update with Some e => [(Col_email, e)] | None => [] end) in
         match update_data with
         | [] => raise (HTTPException 400 D_update_no_data)
         | _ =>
             (if has_key Col_username update_data || has_key Col_email update_data then
                let conditions :=
                  app (if has_key Col_username update_data
                       then [CAnd (CEq Col_username (lookup_key Col_username update_data)) (CIdNe user_id)]
                       else [])
                      (if has_key Col_email update_data
                       then [CAnd (CEq Col_email (lookup_key Col_email update_data)) (CIdNe user_id)]
                       else []) in
                match join_or conditions with
                | None => raise (DBError "syntax error at end of input")
                | Some w =>
                    q2 <- execute (SSelect (Some w) false None None) ;;
                    conflict <- fetchone q2 ;;
                    match conflict with
                    | Some _ => raise (HTTPException 400 D_update_taken)
                    | None => ret tt
                    end
                end
              else ret tt) ;;;
             result <- execute (SUpdate user_id update_data) ;;
             commit ;;;
             updated_row <- fetchone result ;;
             match updated_row with
             | None => raise (HTTPException 500 D_update_failed)
             | Some row => ret (shape_returning row)
             end
         end
     end)
    (fun e => match e with
              | HTTPException _ _ => raise e
              | e => rollback ;;; raise (HTTPException 500 (D_update_error (exn_str e)))
              end).

(** One request: a fresh session over the committed table; when the
    request ends the session is closed and only what was committed stays. *)
Definition run {A} (op : M A) (up drop : bool) (t : table) : (exn + A) * table :=
  let (r, s) := op (mkSession up drop t t) in (r, committed s).

(** ** Request-body validation ([UserCreate], [UserUpdate])

    A JSON body field is absent ([None]) or a JSON value.  [EmailStr] is
    checked by the [email-validator] package, outside this repository: it is
    a parameter [email_check] answering the normalised address, or [None]
    for a malformed one. *)

Inductive jval := JStr (s : string) | JInt (z : Z) | JBool (b : bool) | JNull.

Record raw_body := mkRawBody { p_username : option jval; p_email : option jval }.

Section Validation.
Variable email_check : string -> option string.

(** [username: str] *)
Definition validate_str (c : column) (v : option jval) : list verr + string :=
  match v with
  | None => inl [mkVerr c Missing]
  | Some (JStr s) => inr s
  | Some _ => inl [mkVerr c StringType]
  end.

(** [email: EmailStr] *)
Definition validate_email (c : column) (v : option jval) : list verr + string :=
  match v with
  | None => inl [mkVerr c Missing]
  | Some (JStr s) => match email_check s with Some n => inr n | None => inl [mkVerr c ValueError] end
  | Some _ => inl [mkVerr c StringType]
  end.

Definition errors_of {A} (r : list verr + A) : list verr :=
  match r with inl es => es | inr _ => [] end.

(** Pydantic validates every field and reports all failures together. *)
Definition validate_create (b : raw_body) : list verr + user_create :=
  match validate_str Col_username (p_username b), validate_email Col_email (p_email b) with
  | inr u, inr e => inr (mkUserCreate u e)
  | ru, re => inl (app (errors_of ru) (errors_of re))
  end.

(** [Optional[...] = None]: an absent field and JSON [null] both give [None]. *)
Definition validate_opt (f : option jval -> list verr + string) (v : option jval)
  : list verr + option string :=
  match v with
  | None | Some JNull => inr None
  | Some _ => match f v with inl es => inl es | inr s => inr (Some s) end
  end.

Definition validate_update (b : raw_body) : list verr + user_update :=
  match validate_opt (validate_str Col_username) (p_username b),
        validate_opt (validate_email Col_email) (p_email b) with
  | inr u, inr e => inr (mkUserUpdate u e)
  | ru, re => inl (app (errors_of ru) (errors_of re))
  end.

(** [POST /users] and [PATCH /users/{id}]: FastAPI validates the body
    before the handler runs. *)
Definition create_request (b : raw_body) : M user_out :=
  match validate_create b with
  | inl es => raise (RequestValidationError es)
  | inr u => create_user u
  end.

Definition update_request (user_id : Z) (b : raw_body) : M user_out :=
  match validate_update b with
  | inl es => raise (RequestValidationError es)
  | inr u => update_user user_id u
  end.

End Validation.

(** A concrete address syntax check standing in for [email-validator] in
    the examples: one [@], a non-empty local part, and a domain with an
    inner dot. *)
Definition email_syntax (s : string) : option string :=
  let cs := list_ascii_of_string s in
  let at_count := length (filter (fun c => Ascii.eqb c "@"%char) cs) in
  match String.index 0 "@" s with
  | None => None
  | Some i =>
      let local := substring 0 i s in
      let domain := substring (S i) (String.length s) s in
      if (Nat.eqb at_count 1 && negb (String.eqb local "")
          && match String.index 1 "." domain with
             | Some j => Nat.ltb (S j) (String.length domain)
             | None => false
             end)%bool
      then Some s else None
  end.

(** A computation that leaves the session as it found it. *)
Definition read_only {A} (m : M A) : Prop := forall s, snd (m s) = s.

(** The WHERE clause [get_users] puts on both of its statements. *)
Definition list_where (search : option string) : option cond :=
  let search_given := match search with Some q => negb (String.eqb q "") | None => false end in
  let pat := match search with Some q => "%" ++ q ++ "%" | None => "" end in
  if search_given then Some (COr (CIlike Col_username pat) (CIlike Col_email pat)) else None.

(** The update payload that sets the single field [c] to [x]. *)
Definition one_field (c : column) (x : string) : user_update :=
  match c with
  | Col_username => mkUserUpdate (Some x) None
  | Col_email => mkUserUpdate None (Some x)
  end.

(** The data-model invariant: [id] is the primary key, and no two rows share
    a [username] or an [email]. *)
Definition unique_users (t : table) : Prop :=
  NoDup (map row_id (rows t)) /\ NoDup (map row_username (rows t)) /\ NoDup (map row_email (rows t)).

(** The mutating requests, and the committed table each one leaves. *)
Inductive mutation :=
  | MCreate (u : user_create)
  | MUpdate (user_id : Z) (u : user_update)
  | MDelete (user_id : Z).

Definition store_after (m : mutation) (up drop : bool) (t : table) : table :=
  match m with
  | MCreate u => snd (run (create_user u) up drop t)
  | MUpdate i u => snd (run (update_user i u) up drop t)
  | MDelete i => snd (run (delete_user i) up drop t)
  end.

(** Which body fields pass [UserCreate]'s validation on their own. *)
Definition username_field_ok (b : raw_body) : bool :=
  match p_username b with Some (JStr _) => true | _ => false end.

Definition email_field_ok (email_check : string -> option string) (b : raw_body) : bool :=
  match p_email b with
  | Some (JStr s) => match email_check s with Some _ => true | None => false end
  | _ => false
  end.

(** Case-insensitive substring search as the spec words it (to compare with
    the ILIKE filter of [get_users]). *)
Fixpoint prefix_of (p s : list ascii) : bool :=
  match p, s with
  | [], _ => true
  | _, [] => false
  | c :: p', c' :: s' => Ascii.eqb c c' && prefix_of p' s'
  end.

Fixpoint contains (p s : list ascii) : bool :=
  prefix_of p s || match s with [] => false | _ :: s' => contains p s' end.

Definition spec_search_hit (q : string) (r : row) : bool :=
  contains (lower q) (lower (row_username r)) || contains (lower q) (lower (row_email r)).

(** A [UserUpdate] field is acceptable when absent, [null], or (for the
    username) a string, (for the email) an address the check accepts. *)
Definition username_update_ok (b : raw_body) : bool :=
  match p_username b with None | Some JNull | Some (JStr _) => true | _ => false end.

Definition email_update_ok (email_check : string -> option string) (b : raw_body) : bool :=
  match p_email b with
  | None | Some JNull => true
  | Some (JStr s) => match email_check s with Some _ => true | None => false end
  | _ => false
  end.

(** A search string with no LIKE metacharacter ([%], [_], backslash), and one
    with no backslash. *)
Definition plain_search (q : string) : bool :=
  forallb (fun c => negb (Ascii.eqb c "%" || Ascii.eqb c "_" || Ascii.eqb c "\"))
    (list_ascii_of_string q).

Definition no_backslash (q : string) : bool :=
  forallb (fun c => negb (Ascii.eqb c "\")) (list_ascii_of_string q).

(** ** Examples *)

Definition t_ab : table :=
  mkTable [mkRow 1 "alice" "a@x.com" (Some 10); mkRow 2 "bob" "b@x.com" (Some 11)] 3 12.

Example ex_search_ali :
  fst (run (get_users_request None None (Some "ALI")) true false t_ab)
  = inr (mkListResp [mkUserOut 1 "alice" "a@x.com" (Some (StampText 10))] 1 1 0 100 false).
Proof. vm_compute. reflexivity. Qed.

Example ex_patch_email_taken :
  run (update_user 1 (mkUserUpdate None (Some "b@x.com"))) true false t_ab
  = (inl (HTTPException 400 D_update_taken), t_ab).
Proof. vm_compute. reflexivity. Qed.

Example ex_create :
  fst (run (create_user (mkUserCreate "carol" "c@x.com")) true false t_ab)
  = inr (mkUserOut 3 "carol" "c@x.com" (Some (StampDatetime 12))).
Proof. vm_compute. reflexivity. Qed.

Example ex_email_syntax :
  email_syntax "a@x.com" = Some "a@x.com" /\ email_syntax "ax.com" = None
  /\ email_syntax "a@com" = None /\ email_syntax "a@b@x.com" = None.
Proof. vm_compute. repeat split. Qed.

Example ex_create_missing_both :
  validate_create email_syntax (mkRawBody None (Some (JStr "nope")))
  = inl [mkVerr Col_username Missing; mkVerr Col_email ValueError].
Proof. vm_compute. reflexivity. Qed.

(** ** Read-only computations *)

Lemma read_only_ret {A} (a : A) : read_only (ret a).
Proof. intros s; reflexivity. Qed.

Lemma read_only_raise {A} (e : exn) : read_only (@raise A e).
Proof. intros s; reflexivity. Qed.

Lemma read_only_get_session : read_only get_session.
Proof. intros s; reflexivity. Qed.

Lemma read_only_bind {A B} (m : M A) (k : A -> M B) :
  read_only m -> (forall a, read_only (k a)) -> read_only (bind m k).
Proof.
  intros Hm Hk s; unfold bind.
  specialize (Hm s); destruct (m s) as [[e|a] s']; simpl in *; subst; auto.
  rewrite Hk; reflexivity.
Qed.

Lemma read_only_try {A} (m : M A) (h : exn -> M A) :
  read_only m -> (forall e, read_only (h e)) -> read_only (try_except m h).
Proof.
  intros Hm Hh s; unfold try_except.
  specialize (Hm s); destruct (m s) as [[e|a] s']; simpl in *; subst; auto.
  rewrite Hh; reflexivity.
Qed.

Create HintDb readonly.
#[local] Hint Resolve read_only_ret read_only_raise read_only_get_session : readonly.

Ltac read_only_step :=
  match goal with
  | |- read_only (bind _ _) => apply read_only_bind; [|intro]
  | |- read_only (try_except _ _) => apply read_only_try; [|intro]
  | |- read_only (if ?b then _ else _) => destruct b
  | |- read_only (match ?x with _ => _ end) => destruct x
  | _ => solve [auto with readonly]
  end.

Lemma read_only_fetchone q : read_only (fetchone q).
Proof. destruct q; repeat read_only_step. Qed.

Lemma read_only_fetchall q : read_only (fetchall q).
Proof. destruct q; repeat read_only_step. Qed.

Lemma read_only_scalar_int q : read_only (scalar_int q).
Proof. destruct q; repeat read_only_step. Qed.

Lemma read_only_scalar_text q : read_only (scalar_text q).
Proof. destruct q; repeat read_only_step. Qed.

#[local] Hint Resolve read_only_fetchone read_only_fetchall read_only_scalar_int
  read_only_scalar_text : readonly.

Lemma read_only_select w ob lim off : read_only (execute (SSelect w ob lim off)).
Proof. unfold execute; repeat read_only_step. Qed.

Lemma read_only_count w : read_only (execute (SCount w)).
Proof. unfold execute; repeat read_only_step. Qed.

Lemma read_only_version : read_only (execute SVersion).
Proof. unfold execute; repeat read_only_step. Qed.

#[local] Hint Resolve read_only_select read_only_count read_only_version : readonly.

Lemma run_read_only {A} (m : M A) up drop t :
  read_only m -> snd (run m up drop t) = t.
Proof.
  intros H; unfold run; specialize (H (mkSession up drop t t)).
  destruct (m (mkSession up drop t t)) as [r s]; simpl in *; subst; reflexivity.
Qed.

(** ** C9: List, Get and the health probe never change the store *)

(** Claim C9. [get_users], [get_user] and [health_check] leave the
    committed [users] table exactly as they found it, for every input, every
    table and every server state, whether they answer or fail. *)
Theorem read_operations_preserve_store :
  forall (skip limit : Z) (search : option string) (user_id : Z) (up drop : bool) (t : table),
    snd (run (get_users skip limit search) up drop t) = t
    /\ snd (run (get_user user_id) up drop t) = t
    /\ snd (run health_check up drop t) = t.
Proof.
  intros skip limit search user_id up drop t.
  split; [|split]; apply run_read_only;
    unfold get_users, get_user, health_check; cbv zeta; repeat read_only_step.
Qed.

(** ** C5, C7: the list window *)

Section SortedLists.
Context {A : Type} (R : A -> A -> Prop).

Lemma StronglySorted_skipn n (l : list A) :
  StronglySorted R l -> StronglySorted R (skipn n l).
Proof.
  revert l; induction n as [|n IH]; intros [|a l] H; simpl; auto.
  inversion H; subst; auto.
Qed.

Lemma StronglySorted_firstn n (l : list A) :
  StronglySorted R l -> StronglySorted R (firstn n l).
Proof.
  revert l; induction n as [|n IH]; intros [|a l] H; simpl; try solve [constructor].
  inversion H as [|? ? Hl Hall]; subst. constructor; [now apply IH|].
  rewrite Forall_forall in *. intros x Hx. apply Hall.
  rewrite <- (firstn_skipn n l). apply in_or_app; now left.
Qed.

Lemma StronglySorted_map {B} (R' : B -> B -> Prop) (f : A -> B) (l : list A) :
  (forall a b, R a b -> R' (f a) (f b)) ->
  StronglySorted R l -> StronglySorted R' (map f l).
Proof.
  intros HR; induction l as [|a l IH]; intros H; simpl; constructor;
    inversion H as [|? ? Hl Hall]; subst; auto.
  rewrite Forall_forall in *. intros y Hy. apply in_map_iff in Hy as (x & <- & Hx); auto.
Qed.

End SortedLists.

Lemma sort_by_id_sorted l :
  StronglySorted (fun a b => row_id a <= row_id b) (sort_by_id l).
Proof.
  rewrite <- (map_id (sort_by_id l)).
  apply (StronglySorted_map (fun a b => is_true (RowIdOrder.leb a b))).
  - unfold is_true, RowIdOrder.leb; intros a b H; now apply Z.leb_le.
  - apply RowSort.StronglySorted_sort.
    intros a b c; unfold is_true, RowIdOrder.leb; rewrite !Z.leb_le; lia.
Qed.

Lemma sort_by_id_perm l : Permutation l (sort_by_id l).
Proof. apply RowSort.Permuted_sort. Qed.

(** A [get_users] answer, read off the code. *)
Lemma get_users_ok skip limit search up drop t resp :
  fst (run (get_users skip limit search) up drop t) = inr resp ->
  up = true /\ 0 <= skip /\ 0 <= limit /\
  let matching := where_ (list_where search) (rows t) in
  let users := map shape (firstn (Z.to_nat limit) (skipn (Z.to_nat skip) (sort_by_id matching))) in
  resp = mkListResp users (Z.of_nat (length users)) (Z.of_nat (length matching)) skip limit
           (Z.ltb (skip + Z.of_nat (length users)) (Z.of_nat (length matching))).
Proof.
  unfold run, get_users, try_except, bind, execute, get_session, fetchall, scalar_int, ret,
    raise, list_where.
  destruct up; cbn -[sort_by_id where_ firstn skipn]; [|discriminate].
  destruct (Z.ltb skip 0) eqn:Hs; cbn -[sort_by_id where_ firstn skipn]; [discriminate|].
  destruct (Z.ltb limit 0) eqn:Hl; cbn -[sort_by_id where_ firstn skipn]; [discriminate|].
  intros H. injection H as <-. apply Z.ltb_ge in Hl, Hs. repeat split; auto.
Qed.

(** Claim C5. In every answer of [GET /users], [has_more] holds exactly
    when [skip] plus the number of returned users is below [total], and
    [total] counts every row satisfying the search filter, with no LIMIT or
    OFFSET. *)
Theorem list_has_more_iff skip limit search up drop t resp :
  fst (run (get_users skip limit search) up drop t) = inr resp ->
  (lr_has_more resp = true <-> lr_skip resp + lr_count resp < lr_total resp)
  /\ lr_count resp = Z.of_nat (length (lr_users resp))
  /\ lr_total resp = Z.of_nat (length (where_ (list_where search) (rows t))).
Proof.
  intros H; apply get_users_ok in H as (_ & _ & _ & ->); simpl.
  split; [apply Z.ltb_lt | split; reflexivity].
Qed.

Lemma list_has_more_iff_witness :
  fst (run (get_users 0 1 None) true false t_ab)
    = inr (mkListResp [mkUserOut 1 "alice" "a@x.com" (Some (StampText 10))] 1 2 0 1 true)
  /\ ((true = true <-> 0 + 1 < 2) /\ 1 = Z.of_nat 1
      /\ 2 = Z.of_nat (length (where_ (list_where None) (rows t_ab)))).
Proof.
  split; [vm_compute; reflexivity|].
  apply (list_has_more_iff 0 1 None true false t_ab
           (mkListResp [mkUserOut 1 "alice" "a@x.com" (Some (StampText 10))] 1 2 0 1 true)).
  vm_compute; reflexivity.
Defined.

(** Claim C7. Every answer of [GET /users] lists, in ascending id order,
    the rows matching the filter sorted by id with the first [skip] dropped
    and at most [limit] of the rest kept; an omitted [skip] is 0 and an
    omitted [limit] is 100, and neither is capped. *)
Theorem list_window_by_id skip limit search up drop t resp :
  fst (run (get_users_request skip limit search) up drop t) = inr resp ->
  let k := match skip with Some k => k | None => 0 end in
  let l := match limit with Some l => l | None => 100 end in
  let matching := where_ (list_where search) (rows t) in
  lr_skip resp = k /\ lr_limit resp = l
  /\ lr_users resp = map shape (firstn (Z.to_nat l) (skipn (Z.to_nat k) (sort_by_id matching)))
  /\ Permutation matching (sort_by_id matching)
  /\ StronglySorted (fun a b => out_id a <= out_id b) (lr_users resp).
Proof.
  unfold get_users_request; intros H; apply get_users_ok in H as (_ & _ & _ & ->); simpl.
  repeat split; [apply sort_by_id_perm|].
  apply (StronglySorted_map (fun a b => row_id a <= row_id b)); [auto|].
  apply StronglySorted_firstn, StronglySorted_skipn, sort_by_id_sorted.
Qed.

Lemma list_window_by_id_witness :
  fst (run (get_users_request None None None) true false t_ab)
    = inr (mkListResp [mkUserOut 1 "alice" "a@x.com" (Some (StampText 10)); mkUserOut 2 "bob" "b@x.com" (Some (StampText 11))]
             2 2 0 100 false)
  /\ (let matching := where_ (list_where None) (rows t_ab) in
      0 = 0 /\ 100 = 100
      /\ [mkUserOut 1 "alice" "a@x.com" (Some (StampText 10)); mkUserOut 2 "bob" "b@x.com" (Some (StampText 11))]
         = map shape (firstn (Z.to_nat 100) (skipn (Z.to_nat 0) (sort_by_id matching)))
      /\ Permutation matching (sort_by_id matching)
      /\ StronglySorted (fun a b => out_id a <= out_id b)
           [mkUserOut 1 "alice" "a@x.com" (Some (StampText 10)); mkUserOut 2 "bob" "b@x.com" (Some (StampText 11))]).
Proof.
  split; [vm_compute; reflexivity|].
  apply (list_window_by_id None None None true false t_ab
           (mkListResp [mkUserOut 1 "alice" "a@x.com" (Some (StampText 10)); mkUserOut 2 "bob" "b@x.com" (Some (StampText 11))]
              2 2 0 100 false)).
  vm_compute; reflexivity.
Defined.

(** ** Store effects of the mutating handlers *)

Lemma hd_filter_some (p : row -> bool) l r :
  In r l -> p r = true -> exists r', hd_error (filter p l) = Some r'.
Proof.
  induction l as [|a l IH]; simpl; [tauto|]. intros [<-|H] Hp.
  - rewrite Hp; simpl; eauto.
  - destruct (p a); simpl; eauto.
Qed.

Lemma hd_filter_none (p : row -> bool) l :
  hd_error (filter p l) = None -> forall r, In r l -> p r = false.
Proof.
  induction l as [|a l IH]; simpl; [tauto|].
  destruct (p a) eqn:Ha; simpl; [discriminate|]. intros H r [<-|Hr]; auto.
Qed.

Lemma create_effect (u : user_create) up drop t :
  snd (run (create_user u) up drop t) = t
  \/ snd (run (create_user u) up drop t) = mkTable (rows t) (next_id t + 1) (clock t)
  \/ (up = true
      /\ (forall r, In r (rows t) -> row_username r <> uc_username u /\ row_email r <> uc_email u)
      /\ (forall r, In r (rows t) -> row_id r <> next_id t)
      /\ snd (run (create_user u) up drop t)
         = mkTable (rows t ++ [mkRow (next_id t) (uc_username u) (uc_email u) (Some (clock t))])
                   (next_id t + 1) (clock t)).
Proof.
  unfold run, create_user, try_except, bind, execute, get_session, fetchone, ret, raise,
    set_work, commit, rollback.
  destruct up; cbn -[filter existsb]; [|left; reflexivity].
  destruct (hd_error (filter _ (rows t))) eqn:Hc; cbn -[filter existsb]; [left; reflexivity|].
  destruct (existsb _ (rows t)) eqn:Hk; cbn -[filter existsb]; [right; left; reflexivity|].
  right; right; split; [reflexivity|]; split; [|split].
  - intros r Hr. pose proof (hd_filter_none _ _ Hc r Hr) as H; simpl in H.
    apply orb_false_iff in H as [H1 H2]; apply String.eqb_neq in H1, H2; auto.
  - intros r Hr Hid. assert (existsb (fun r => Z.eqb (row_id r) (next_id t)) (rows t) = true) as E
      by (apply existsb_exists; exists r; split; [auto|apply Z.eqb_eq; auto]).
    congruence.
  - destruct drop; reflexivity.
Qed.
Lemma delete_effect uid up drop t :
  snd (run (delete_user uid) up drop t) = t
  \/ snd (run (delete_user uid) up drop t)
     = mkTable (filter (fun r => negb (Z.eqb (row_id r) uid)) (rows t)) (next_id t) (clock t).
Proof.
  unfold run, delete_user, try_except, bind, execute, get_session, fetchone, ret, raise,
    set_work, commit, rollback.
  destruct up; cbn -[filter]; [|left; reflexivity].
  destruct (hd_error (filter _ (rows t))); cbn -[filter]; [|left; reflexivity].
  right. destruct drop; cbn -[filter]; [reflexivity|].
  destruct (hd_error (filter _ (rows t))); reflexivity.
Qed.

Lemma update_effect uid (upd : user_update) up drop t :
  snd (run (update_user uid upd) up drop t) = t
  \/ (up = true
      /\ (forall r', In r' (rows t) -> row_id r' <> uid ->
            (forall x, uu_username upd = Some x -> row_username r' <> x)
            /\ (forall y, uu_email upd = Some y -> row_email r' <> y))
      /\ snd (run (update_user uid upd) up drop t)
         = mkTable (update_rows uid
                      (app (match uu_username upd with Some u => [(Col_username, u)] | None => [] end)
                           (match uu_email upd with Some e => [(Col_email, e)] | None => [] end))
                      (rows t)) (next_id t) (clock t)).
Proof.
  unfold run, update_user, try_except, bind, execute, get_session, fetchone, ret, raise,
    set_work, commit, rollback.
  destruct up; cbn -[filter update_rows]; [|left; reflexivity].
  destruct (hd_error (filter _ (rows t))); cbn -[filter update_rows]; [|left; reflexivity].
  destruct upd as [[x|] [y|]]; cbn -[filter update_rows]; try (left; reflexivity).
  - destruct (hd_error (filter _ (rows t))) eqn:Hc; cbn -[filter update_rows]; [left; reflexivity|].
    right; split; [reflexivity|]; split.
    + intros r' Hr' Hid. pose proof (hd_filter_none _ _ Hc r' Hr') as H; simpl in H.
      apply orb_false_iff in H as [H1 H2].
      assert (Hn : (row_id r' =? uid)%Z = false) by (apply Z.eqb_neq; auto).
      rewrite Hn in H1, H2; simpl in H1, H2. rewrite andb_true_r in H1, H2.
      split; intros z Hz; injection Hz as <-; apply String.eqb_neq; auto.
    + destruct drop; [reflexivity|]; cbn -[filter update_rows].
      destruct (hd_error (filter _ (update_rows _ _ _))); reflexivity.
  - destruct (hd_error (filter _ (rows t))) eqn:Hc; cbn -[filter update_rows]; [left; reflexivity|].
    right; split; [reflexivity|]; split.
    + intros r' Hr' Hid. pose proof (hd_filter_none _ _ Hc r' Hr') as H; simpl in H.
      assert (Hn : (row_id r' =? uid)%Z = false) by (apply Z.eqb_neq; auto).
      rewrite Hn in H; simpl in H. rewrite andb_true_r in H.
      split; intros z Hz; [injection Hz as <-; apply String.eqb_neq; auto | discriminate].
    + destruct drop; [reflexivity|]; cbn -[filter update_rows].
      destruct (hd_error (filter _ (update_rows _ _ _))); reflexivity.
  - destruct (hd_error (filter _ (rows t))) eqn:Hc; cbn -[filter update_rows]; [left; reflexivity|].
    right; split; [reflexivity|]; split.
    + intros r' Hr' Hid. pose proof (hd_filter_none _ _ Hc r' Hr') as H; simpl in H.
      assert (Hn : (row_id r' =? uid)%Z = false) by (apply Z.eqb_neq; auto).
      rewrite Hn in H; simpl in H. rewrite andb_true_r in H.
      split; intros z Hz; [discriminate | injection Hz as <-; apply String.eqb_neq; auto].
    + destruct drop; [reflexivity|]; cbn -[filter update_rows].
      destruct (hd_error (filter _ (update_rows _ _ _))); reflexivity.
Qed.
Section NoDupRows.
Context {B : Type} (f : row -> B).

Lemma NoDup_map_eq l a b :
  NoDup (map f l) -> In a l -> In b l -> f a = f b -> a = b.
Proof.
  induction l as [|c l IH]; simpl; [tauto|]. intros Hn Ha Hb E.
  inversion Hn as [|? ? Hnot Hl]; subst.
  destruct Ha as [<-|Ha], Hb as [<-|Hb]; auto.
  - exfalso; apply Hnot; rewrite E; now apply in_map.
  - exfalso; apply Hnot; rewrite <- E; now apply in_map.
Qed.

Lemma NoDup_map_snoc l x :
  NoDup (map f l) -> (forall r, In r l -> f r <> f x) -> NoDup (map f (l ++ [x])).
Proof.
  induction l as [|a l IH]; simpl; intros Hn Hx.
  - constructor; [simpl; tauto|constructor].
  - inversion Hn as [|? ? Hnot Hl]; subst. constructor.
    + rewrite map_app, in_app_iff; simpl. intros [H|[H|[]]]; [contradiction|].
      apply (Hx a); auto.
    + apply IH; auto.
Qed.

Lemma NoDup_map_filter (p : row -> bool) l :
  NoDup (map f l) -> NoDup (map f (filter p l)).
Proof.
  induction l as [|a l IH]; simpl; intros Hn; [constructor|].
  inversion Hn as [|? ? Hnot Hl]; subst.
  destruct (p a); simpl; auto. constructor; auto.
  intros Hin; apply Hnot. apply in_map_iff in Hin as (b & Hb & Hbin).
  apply filter_In in Hbin as [Hbin _]. rewrite <- Hb; now apply in_map.
Qed.

Lemma NoDup_map_update_rows uid (g : row -> row) l :
  NoDup (map row_id l) -> NoDup (map f l) ->
  (forall r r', In r l -> In r' l -> row_id r = uid -> row_id r' <> uid -> f (g r) <> f r') ->
  NoDup (map f (map (fun r => if Z.eqb (row_id r) uid then g r else r) l)).
Proof.
  induction l as [|a l IH]; simpl; intros Hid Hn Hg; [constructor|].
  inversion Hid as [|? ? Hnotid Hlid]; inversion Hn as [|? ? Hnot Hl]; subst.
  constructor; [|apply IH; auto; intros; apply Hg; auto].
  rewrite map_map; intros Hin; apply in_map_iff in Hin as (b & Hb & Hbin).
  assert (Hba : row_id b <> row_id a) by (intros E; apply Hnotid; rewrite <- E; now apply in_map).
  destruct (Z.eqb_spec (row_id a) uid) as [Ea|Ea], (Z.eqb_spec (row_id b) uid) as [Eb|Eb].
  - congruence.
  - apply (Hg a b); auto.
  - apply (Hg b a); auto.
  - apply Hnot; rewrite <- Hb; now apply in_map.
Qed.

End NoDupRows.

Lemma apply_sets_id sets r : row_id (apply_sets sets r) = row_id r.
Proof.
  unfold apply_sets; revert r; induction sets as [|[c v] sets IH]; intros r; simpl; auto.
  rewrite IH; destruct c; reflexivity.
Qed.

Lemma map_id_update_rows uid sets l : map row_id (update_rows uid sets l) = map row_id l.
Proof.
  unfold update_rows; rewrite map_map; apply map_ext; intros r.
  destruct (Z.eqb (row_id r) uid); auto using apply_sets_id.
Qed.
Lemma username_apply_update_data (upd : user_update) r :
  row_username (apply_sets
    (app (match uu_username upd with Some u => [(Col_username, u)] | None => [] end)
         (match uu_email upd with Some e => [(Col_email, e)] | None => [] end)) r)
  = match uu_username upd with Some x => x | None => row_username r end.
Proof. destruct upd as [[x|] [y|]]; reflexivity. Qed.

Lemma email_apply_update_data (upd : user_update) r :
  row_email (apply_sets
    (app (match uu_username upd with Some u => [(Col_username, u)] | None => [] end)
         (match uu_email upd with Some e => [(Col_email, e)] | None => [] end)) r)
  = match uu_email upd with Some y => y | None => row_email r end.
Proof. destruct upd as [[x|] [y|]]; reflexivity. Qed.

(** Claim C1. From a table where no two rows share a username or an email
    (and ids are distinct, as the primary key guarantees), every create,
    update or delete request, whatever its outcome, leaves a committed table
    with the same property: [create_user] inserts only when no row has the
    new username or email, and [update_user] writes only fields that no
    other row holds. *)
Theorem mutations_preserve_uniqueness m up drop t :
  unique_users t -> unique_users (store_after m up drop t).
Proof.
  intros (Hid & Hu & He); destruct m as [u|uid upd|uid]; simpl.
  - destruct (create_effect u up drop t) as [-> | [-> | (_ & Hfresh & Hkey & ->)]];
      [repeat split; auto|repeat split; auto|].
    unfold unique_users; simpl; repeat split; apply NoDup_map_snoc; auto;
      intros r Hr; simpl; pose proof (Hfresh r Hr); pose proof (Hkey r Hr); tauto.
  - destruct (update_effect uid upd up drop t) as [-> | (_ & Hchk & ->)];
      [repeat split; auto|].
    unfold unique_users; simpl; split; [|split].
    + rewrite map_id_update_rows; auto.
    + apply NoDup_map_update_rows; auto. intros r r' Hr Hr' Er Er'.
      rewrite username_apply_update_data.
      destruct (uu_username upd) as [x|] eqn:Ex.
      * intros E; subst x. apply (proj1 (Hchk r' Hr' Er') _ eq_refl); reflexivity.
      * intros E. assert (r = r') by (apply (NoDup_map_eq row_username (rows t)); auto).
        subst; contradiction.
    + apply NoDup_map_update_rows; auto. intros r r' Hr Hr' Er Er'.
      rewrite email_apply_update_data.
      destruct (uu_email upd) as [y|] eqn:Ey.
      * intros E; subst y. apply (proj2 (Hchk r' Hr' Er') _ eq_refl); reflexivity.
      * intros E. assert (r = r') by (apply (NoDup_map_eq row_email (rows t)); auto).
        subst; contradiction.
  - destruct (delete_effect uid up drop t) as [-> | ->]; [repeat split; auto|].
    unfold unique_users; simpl; repeat split; apply NoDup_map_filter; auto.
Qed.

Lemma mutations_preserve_uniqueness_witness :
  unique_users t_ab
  /\ unique_users (store_after (MCreate (mkUserCreate "carol" "c@x.com")) true false t_ab).
Proof.
  assert (H : unique_users t_ab)
    by (unfold unique_users; simpl; repeat split; repeat constructor; simpl; intuition discriminate).
  split; [exact H|].
  apply (mutations_preserve_uniqueness (MCreate (mkUserCreate "carol" "c@x.com")) true false t_ab).
  exact H.
Defined.

(** ** Updates *)

Lemma hd_filter_none_intro (p : row -> bool) l :
  (forall r, In r l -> p r = false) -> hd_error (filter p l) = None.
Proof.
  induction l as [|a l IH]; simpl; intros H; auto.
  rewrite (H a (or_introl eq_refl)); apply IH; auto.
Qed.

Lemma hd_filter_in (p : row -> bool) l a :
  hd_error (filter p l) = Some a -> In a l /\ p a = true.
Proof.
  intros H; assert (Hin : In a (filter p l)).
  { destruct (filter p l) as [|x xs]; simpl in H; [discriminate|]. injection H as ->; now left. }
  now apply filter_In.
Qed.

Lemma update_rows_in uid sets l a :
  In a (update_rows uid sets l) -> row_id a = uid -> exists r0, In r0 l /\ a = apply_sets sets r0.
Proof.
  unfold update_rows; intros Ha Hid; apply in_map_iff in Ha as (r0 & Hr0 & Hin).
  exists r0; split; auto.
  destruct (Z.eqb_spec (row_id r0) uid); auto. subst a; contradiction.
Qed.

(** The row [update_user] hands back after a successful UPDATE. *)
Lemma update_rows_target uid sets l r :
  In r l -> row_id r = uid ->
  exists a, hd_error (filter (fun r' => Z.eqb (row_id r') uid) (update_rows uid sets l)) = Some a
            /\ row_id a = uid /\ exists r0, In r0 l /\ a = apply_sets sets r0.
Proof.
  intros Hr Hid.
  destruct (hd_filter_some (fun r' => Z.eqb (row_id r') uid) (update_rows uid sets l)
              (apply_sets sets r)) as [a Ha].
  - unfold update_rows; apply in_map_iff; exists r; split; auto.
    rewrite Hid, Z.eqb_refl; reflexivity.
  - rewrite apply_sets_id; apply Z.eqb_eq; auto.
  - exists a; split; auto.
    apply hd_filter_in in Ha as [Hin Heq]; apply Z.eqb_eq in Heq.
    split; auto. eapply update_rows_in; eauto.
Qed.

Lemma col_value_set c x r : col_value c (apply_sets [(c, x)] r) = x.
Proof. destruct c; reflexivity. Qed.

(** [update_user] with a single field, on a reachable server and an existing
    id, read off the code. *)
Lemma update_one_field c x uid drop t r :
  In r (rows t) -> row_id r = uid ->
  run (update_user uid (one_field c x)) true drop t =
  match hd_error (filter (fun r' => String.eqb (col_value c r') x && negb (Z.eqb (row_id r') uid))
                         (rows t)) with
  | Some _ => (inl (HTTPException 400 D_update_taken), t)
  | None =>
      let rs' := update_rows uid [(c, x)] (rows t) in
      let t' := mkTable rs' (next_id t) (clock t) in
      (match (if drop then None else hd_error (filter (fun r' => Z.eqb (row_id r') uid) rs')) with
       | None => inl (HTTPException 500 D_update_failed)
       | Some row => inr (shape_returning row)
       end, t')
  end.
Proof.
  intros Hr Hid.
  destruct (hd_filter_some (fun r => Z.eqb (row_id r) uid) (rows t) r Hr) as [r' Hr'];
    [now apply Z.eqb_eq|].
  unfold run, update_user, try_except, bind, execute, get_session, fetchone, ret, raise,
    set_work, commit.
  destruct c; cbn -[filter update_rows]; rewrite Hr'; cbn -[filter update_rows].
  - destruct (hd_error (filter (fun r0 => (row_username r0 =? x) && negb (row_id r0 =? uid)%Z)
                               (rows t)));
      cbn -[filter update_rows]; [reflexivity|].
    destruct drop; [reflexivity|]; cbn -[filter update_rows].
    destruct (hd_error (filter _ (update_rows _ _ _))); reflexivity.
  - destruct (hd_error (filter (fun r0 => (row_email r0 =? x) && negb (row_id r0 =? uid)%Z)
                               (rows t)));
      cbn -[filter update_rows]; [reflexivity|].
    destruct drop; [reflexivity|]; cbn -[filter update_rows].
    destruct (hd_error (filter _ (update_rows _ _ _))); reflexivity.
Qed.

(** Claim C8. On a reachable server, a PATCH of an existing user whose body
    sets neither [username] nor [email] (both absent or null) is refused
    with the 400 "No data provided for update" error, and the committed
    table is unchanged. *)
Theorem update_without_fields_rejected email_check uid (b : raw_body) drop t :
  (p_username b = None \/ p_username b = Some JNull) ->
  (p_email b = None \/ p_email b = Some JNull) ->
  (exists r, In r (rows t) /\ row_id r = uid) ->
  run (update_request email_check uid b) true drop t = (inl (HTTPException 400 D_update_no_data), t).
Proof.
  intros Hu He (r & Hr & Hid).
  destruct (hd_filter_some (fun r => Z.eqb (row_id r) uid) (rows t) r Hr) as [r' Hr'];
    [now apply Z.eqb_eq|].
  assert (Hv : validate_update email_check b = inr (mkUserUpdate None None)).
  { unfold validate_update; destruct Hu as [-> | ->]; destruct He as [-> | ->]; reflexivity. }
  unfold update_request; rewrite Hv.
  unfold run, update_user, try_except, bind, execute, get_session, fetchone, ret, raise.
  cbn -[filter]. rewrite Hr'. reflexivity.
Qed.

Lemma update_without_fields_rejected_witness :
  (p_username (mkRawBody None (Some JNull)) = None
   \/ p_username (mkRawBody None (Some JNull)) = Some JNull)
  /\ (p_email (mkRawBody None (Some JNull)) = None
      \/ p_email (mkRawBody None (Some JNull)) = Some JNull)
  /\ (exists r, In r (rows t_ab) /\ row_id r = 1)
  /\ run (update_request email_syntax 1 (mkRawBody None (Some JNull))) true false t_ab
     = (inl (HTTPException 400 D_update_no_data), t_ab).
Proof.
  split; [left; reflexivity|]. split; [right; reflexivity|].
  split; [exists (mkRow 1 "alice" "a@x.com" (Some 10)); split; [simpl; auto|reflexivity]|].
  apply (update_without_fields_rejected email_syntax 1 (mkRawBody None (Some JNull)) false t_ab).
  - left; reflexivity.
  - right; reflexivity.
  - exists (mkRow 1 "alice" "a@x.com" (Some 10)); split; [simpl; auto|reflexivity].
Defined.

(** Claim C3. Let [uid] be the id of an existing row [r] on a reachable
    server.  A PATCH setting the single field [c] (username or email) to [x]
    is refused with the 400 "already taken" error, leaving the table as it
    was, as soon as a row with another id holds [x] in that column; and when
    [x] is [r]'s own current value (and no two rows share that column's
    value) the PATCH succeeds: the conflict check only looks at the fields
    present and skips the row being updated. *)
Theorem update_conflict_excludes_self uid x drop t r :
  In r (rows t) -> row_id r = uid ->
  (forall c, (exists r', In r' (rows t) /\ row_id r' <> uid /\ col_value c r' = x) ->
     run (update_user uid (one_field c x)) true drop t = (inl (HTTPException 400 D_update_taken), t))
  /\ (forall c, NoDup (map (col_value c) (rows t)) -> x = col_value c r -> drop = false ->
     exists out, fst (run (update_user uid (one_field c x)) true drop t) = inr out /\ out_id out = uid).
Proof.
  intros Hr Hid; split.
  - intros c (r' & Hr' & Hid' & Hx).
    rewrite (update_one_field c x uid drop t r Hr Hid).
    destruct (hd_filter_some (fun r0 => String.eqb (col_value c r0) x && negb (Z.eqb (row_id r0) uid))
                (rows t) r' Hr') as [a ->]; [|reflexivity].
    apply andb_true_iff; split; [now apply String.eqb_eq|].
    apply negb_true_iff, Z.eqb_neq; auto.
  - intros c Hnd Hx Hdrop; subst drop.
    rewrite (update_one_field c x uid false t r Hr Hid).
    rewrite hd_filter_none_intro.
    + destruct (update_rows_target uid [(c, x)] (rows t) r Hr Hid) as (a & Ha & Hida & _).
      simpl; rewrite Ha. exists (shape_returning a); split; auto.
    + intros r' Hr'. apply andb_false_iff.
      destruct (String.eqb_spec (col_value c r') x) as [E|E]; [right|left; reflexivity].
      assert (r' = r) as -> by (apply (NoDup_map_eq (col_value c) (rows t)); congruence).
      rewrite Hid, Z.eqb_refl; reflexivity.
Qed.

Lemma update_conflict_excludes_self_witness :
  In (mkRow 1 "alice" "a@x.com" (Some 10)) (rows t_ab)
  /\ row_id (mkRow 1 "alice" "a@x.com" (Some 10)) = 1
  /\ ((forall c, (exists r', In r' (rows t_ab) /\ row_id r' <> 1 /\ col_value c r' = "alice") ->
        run (update_user 1 (one_field c "alice")) true false t_ab
        = (inl (HTTPException 400 D_update_taken), t_ab))
      /\ (forall c, NoDup (map (col_value c) (rows t_ab)) ->
            "alice" = col_value c (mkRow 1 "alice" "a@x.com" (Some 10)) -> false = false ->
            exists out, fst (run (update_user 1 (one_field c "alice")) true false t_ab) = inr out
                        /\ out_id out = 1)).
Proof.
  split; [simpl; auto|]. split; [reflexivity|].
  apply (update_conflict_excludes_self 1 "alice" false t_ab (mkRow 1 "alice" "a@x.com" (Some 10))).
  - simpl; auto.
  - reflexivity.
Defined.

(** Claim C10. [update_user] has no non-emptiness check on [username]: the
    body [{"username": ""}] validates to a change set holding the empty
    string (not to an absent field), and on a reachable server, for an
    existing id, when no other row has an empty username the PATCH succeeds,
    answers the empty username and commits it for that user. *)
Theorem update_accepts_empty_username email_check uid t r :
  In r (rows t) -> row_id r = uid ->
  (forall r', In r' (rows t) -> row_id r' <> uid -> row_username r' <> "") ->
  validate_update email_check (mkRawBody (Some (JStr "")) None) = inr (mkUserUpdate (Some "") None)
  /\ exists out,
       run (update_request email_check uid (mkRawBody (Some (JStr "")) None)) true false t
       = (inr out, mkTable (update_rows uid [(Col_username, "")] (rows t)) (next_id t) (clock t))
       /\ out_username out = ""
       /\ (forall a, In a (update_rows uid [(Col_username, "")] (rows t)) -> row_id a = uid ->
             row_username a = "").
Proof.
  intros Hr Hid Hother; split; [reflexivity|].
  unfold update_request.
  replace (validate_update email_check (mkRawBody (Some (JStr "")) None))
    with (@inr (list verr) user_update (one_field Col_username "")) by reflexivity.
  rewrite (update_one_field Col_username "" uid false t r Hr Hid).
  rewrite hd_filter_none_intro.
  - destruct (update_rows_target uid [(Col_username, "")] (rows t) r Hr Hid)
      as (a & Ha & Hida & r0 & Hr0 & ->).
    simpl; rewrite Ha. exists (shape_returning (apply_sets [(Col_username, "")] r0)).
    split; [reflexivity|]. split; [reflexivity|].
    intros a Hin Ha'. apply update_rows_in in Hin as (r1 & _ & ->); auto.
  - intros r' Hr'. apply andb_false_iff.
    destruct (Z.eqb_spec (row_id r') uid) as [E|E]; [right; reflexivity|left].
    apply String.eqb_neq; simpl; apply Hother; auto.
Qed.

Lemma update_accepts_empty_username_witness :
  In (mkRow 1 "alice" "a@x.com" (Some 10)) (rows t_ab)
  /\ row_id (mkRow 1 "alice" "a@x.com" (Some 10)) = 1
  /\ (forall r', In r' (rows t_ab) -> row_id r' <> 1 -> row_username r' <> "")
  /\ (validate_update email_syntax (mkRawBody (Some (JStr "")) None) = inr (mkUserUpdate (Some "") None)
      /\ exists out,
           run (update_request email_syntax 1 (mkRawBody (Some (JStr "")) None)) true false t_ab
           = (inr out, mkTable (update_rows 1 [(Col_username, "")] (rows t_ab)) (next_id t_ab) (clock t_ab))
           /\ out_username out = ""
           /\ (forall a, In a (update_rows 1 [(Col_username, "")] (rows t_ab)) -> row_id a = 1 ->
                 row_username a = "")).
Proof.
  assert (Hother : forall r', In r' (rows t_ab) -> row_id r' <> 1 -> row_username r' <> "").
  { simpl; intros r' [<-|[<-|[]]]; simpl; intros _; discriminate. }
  split; [simpl; auto|]. split; [reflexivity|]. split; [exact Hother|].
  apply (update_accepts_empty_username email_syntax 1 t_ab (mkRow 1 "alice" "a@x.com" (Some 10))).
  - simpl; auto.
  - reflexivity.
  - exact Hother.
Defined.

(** ** Create-body validation *)

(** Claim C4 does not hold as stated: [UserCreate] declares [username: str]
    without a length bound, so the empty username is accepted. *)
Lemma create_accepts_empty_username :
  validate_create email_syntax (mkRawBody (Some (JStr "")) (Some (JStr "a@x.com")))
  = inr (mkUserCreate "" "a@x.com").
Proof. vm_compute. reflexivity. Qed.

(** Claim C4, as amended. A create body is accepted exactly when
    [username] is a string (any string, the empty one included) and [email]
    passes the address check; a refused body gets one ValidationError
    listing every failing field (the username entry present exactly when the
    username fails, the email entry exactly when the email fails), raised
    before the handler runs, so the session is not touched. *)
Theorem create_validation_reports_all email_check b :
  ((exists errs, validate_create email_check b = inl errs)
     <-> username_field_ok b = false \/ email_field_ok email_check b = false)
  /\ (forall errs, validate_create email_check b = inl errs ->
     (In Col_username (map verr_loc errs) <-> username_field_ok b = false)
     /\ (In Col_email (map verr_loc errs) <-> email_field_ok email_check b = false)
     /\ forall s, create_request email_check b s = (inl (RequestValidationError errs), s))
  /\ (username_field_ok b = true -> email_field_ok email_check b = true ->
      exists u, validate_create email_check b = inr u /\ uc_username u = match p_username b with
                                                                        | Some (JStr x) => x
                                                                        | _ => "" end).
Proof.
  split; [|split].
  - unfold validate_create, validate_str, validate_email, username_field_ok, email_field_ok.
    destruct (p_username b) as [[]|], (p_email b) as [[x| | | ]|]; try destruct (email_check x);
    simpl; split; (intros [? H] || intros [H|H]); try discriminate; eauto.
  - intros errs H. split; [|split]; [| |intros s; unfold create_request; rewrite H; reflexivity];
    unfold validate_create, validate_str, validate_email, username_field_ok, email_field_ok in *;
    destruct (p_username b) as [[]|], (p_email b) as [[x| | | ]|]; try destruct (email_check x);
    simpl in *; inversion H; subst; simpl; intuition discriminate.
  - unfold validate_create, validate_str, validate_email, username_field_ok, email_field_ok.
    destruct (p_username b) as [[]|], (p_email b) as [[x| | | ]|]; try destruct (email_check x);
    simpl; intros; try discriminate; eexists; split; reflexivity.
Qed.

(** ** The search filter *)

(** Claim C6 (what holds): the select and the count of [get_users] carry
    the same WHERE clause, [list_where search], which is absent when
    [search] is absent or empty; the count has no LIMIT or OFFSET. *)
Lemma get_users_statements skip limit search up drop t resp :
  fst (run (get_users skip limit search) up drop t) = inr resp ->
  lr_total resp = Z.of_nat (length (where_ (list_where search) (rows t)))
  /\ (search = None \/ search = Some "" -> list_where search = None).
Proof.
  intros H; apply get_users_ok in H as (_ & _ & _ & ->); split; [reflexivity|].
  intros [-> | ->]; reflexivity.
Qed.

(** Claim C6 fails in the code: the search string is pasted into the
    ILIKE pattern without escaping, so [_] (and [%]) act as wildcards.  With
    [search = "_"], bob's row is listed and counted although neither "bob"
    nor "b@x.com" contains "_". *)
Lemma search_underscore_is_wildcard :
  spec_search_hit "_" (mkRow 2 "bob" "b@x.com" (Some 11)) = false
  /\ where_ (list_where (Some "_")) (rows t_ab) = rows t_ab
  /\ fst (run (get_users 0 100 (Some "_")) true false t_ab)
     = inr (mkListResp [mkUserOut 1 "alice" "a@x.com" (Some (StampText 10)); mkUserOut 2 "bob" "b@x.com" (Some (StampText 11))]
              2 2 0 100 false).
Proof. vm_compute. repeat split. Qed.

(** ** Transactions *)

(** Claim C2 fails in the code: [create_user] calls [db.commit()] before
    its defensive check of the RETURNING row.  When the INSERT runs but the
    driver hands back no row, the request answers the 500 "could not create
    the user" error while the new row stays committed. *)
Lemma create_commits_before_row_check :
  run (create_user (mkUserCreate "alice" "a@x.com")) true true (mkTable [] 1 0)
  = (inl (HTTPException 500 D_create_failed),
     mkTable [mkRow 1 "alice" "a@x.com" (Some 0)] 2 0).
Proof. vm_compute. reflexivity. Qed.

(** With a driver that hands back the RETURNING rows, every refused create,
    update or delete leaves the committed rows unchanged: the only error
    answered after [db.commit()] is the defensive no-row check above.  A
    create refused by the primary key still uses up one sequence value. *)
Lemma mutation_errors_keep_store up t :
  (forall u e, fst (run (create_user u) up false t) = inl e ->
     snd (run (create_user u) up false t) = t
     \/ snd (run (create_user u) up false t) = mkTable (rows t) (next_id t + 1) (clock t))
  /\ (forall uid upd e, fst (run (update_user uid upd) up false t) = inl e ->
        snd (run (update_user uid upd) up false t) = t)
  /\ (forall uid e, fst (run (delete_user uid) up false t) = inl e ->
        snd (run (delete_user uid) up false t) = t).
Proof.
  split; [|split].
  - intros u e. unfold run, create_user, try_except, bind, execute, get_session, fetchone, ret,
      raise, set_work, commit, rollback.
    destruct up; cbn -[filter existsb]; [|left; reflexivity].
    destruct (hd_error (filter _ (rows t))); cbn -[filter existsb]; [left; reflexivity|].
    destruct (existsb _ (rows t)); cbn -[filter existsb]; [right; reflexivity|discriminate].
  - intros uid upd e. unfold run, update_user, try_except, bind, execute, get_session, fetchone,
      ret, raise, set_work, commit, rollback.
    destruct up; cbn -[filter update_rows]; [|reflexivity].
    destruct (hd_error (filter _ (rows t))) as [r0|] eqn:Hex; cbn -[filter update_rows];
      [|reflexivity].
    apply hd_filter_in in Hex as [Hr0 Hid0]; apply Z.eqb_eq in Hid0.
    destruct upd as [[x|] [y|]]; cbn -[filter update_rows]; try reflexivity;
      (destruct (hd_error (filter _ (rows t))); cbn -[filter update_rows]; [reflexivity|]);
      match goal with
      | |- context [hd_error (filter ?p (update_rows uid ?sets (rows t)))] =>
          destruct (update_rows_target uid sets (rows t) r0 Hr0 Hid0) as (a & -> & _)
      end; discriminate.
  - intros uid e. unfold run, delete_user, try_except, bind, execute, get_session, fetchone, ret,
      raise, set_work, commit, rollback.
    destruct up; cbn -[filter]; [|reflexivity].
    destruct (hd_error (filter _ (rows t))) eqn:Hex; cbn -[filter]; [|reflexivity].
    rewrite Hex; discriminate.
Qed.

(** ** Further behaviour of the handlers *)

Lemma get_user_result uid up drop t :
  run (get_user uid) up drop t =
  if up then
    match hd_error (filter (fun r => Z.eqb (row_id r) uid) (rows t)) with
    | Some r => (inr (shape r), t)
    | None => (inl (HTTPException 404 D_user_not_found), t)
    end
  else (inl (HTTPException 500 (D_str "connection refused")), t).
Proof.
  unfold run, get_user, try_except, bind, execute, get_session, fetchone, ret, raise.
  destruct up; cbn -[filter]; [|reflexivity].
  destruct (hd_error (filter _ (rows t))); reflexivity.
Qed.

Lemma create_result (u : user_create) drop t :
  run (create_user u) true drop t =
  match hd_error (filter (fun r => String.eqb (row_username r) (uc_username u)
                                   || String.eqb (row_email r) (uc_email u)) (rows t)) with
  | Some _ => (inl (HTTPException 400 D_create_exists), t)
  | None =>
      if existsb (fun r => Z.eqb (row_id r) (next_id t)) (rows t)
      then (inl (HTTPException 500
                   (D_create_error "duplicate key value violates unique constraint users_pkey")),
            mkTable (rows t) (next_id t + 1) (clock t))
      else
        let r := mkRow (next_id t) (uc_username u) (uc_email u) (Some (clock t)) in
        (if drop then inl (HTTPException 500 D_create_failed) else inr (shape_returning r),
         mkTable (rows t ++ [r]) (next_id t + 1) (clock t))
  end.
Proof.
  unfold run, create_user, try_except, bind, execute, get_session, fetchone, ret, raise,
    set_work, commit, rollback.
  cbn -[filter existsb].
  destruct (hd_error (filter _ (rows t))); cbn -[filter existsb]; [reflexivity|].
  destruct (existsb _ (rows t)); cbn -[filter existsb]; [reflexivity|].
  destruct drop; reflexivity.
Qed.

Lemma delete_result uid drop t :
  run (delete_user uid) true drop t =
  match hd_error (filter (fun r => Z.eqb (row_id r) uid) (rows t)) with
  | None => (inl (HTTPException 404 (D_user_id_not_found uid)), t)
  | Some _ =>
      (if drop then inl (HTTPException 500 D_delete_failed) else inr uid,
       mkTable (filter (fun r => negb (Z.eqb (row_id r) uid)) (rows t)) (next_id t) (clock t))
  end.
Proof.
  unfold run, delete_user, try_except, bind, execute, get_session, fetchone, ret, raise,
    set_work, commit, rollback.
  cbn -[filter].
  destruct (hd_error (filter _ (rows t))) eqn:E; cbn -[filter]; [|reflexivity].
  destruct drop; [reflexivity|]; cbn -[filter]; rewrite E; reflexivity.
Qed.

Lemma hd_filter_unique_id l uid r :
  NoDup (map row_id l) -> In r l -> row_id r = uid ->
  hd_error (filter (fun r' => Z.eqb (row_id r') uid) l) = Some r.
Proof.
  intros Hnd Hr Hid.
  destruct (hd_filter_some (fun r' => Z.eqb (row_id r') uid) l r Hr) as [a Ha];
    [now apply Z.eqb_eq|].
  rewrite Ha; f_equal. apply hd_filter_in in Ha as [Ha Hida]; apply Z.eqb_eq in Hida.
  apply (NoDup_map_eq row_id l); congruence.
Qed.


(** [GET /health] never raises: it answers [healthy] with the server
    version when the server is reachable and [unhealthy] with the error text
    when it is not. *)
Theorem health_check_reports_state up drop t :
  match up with
  | true => exists v, fst (run health_check up drop t) = inr (Healthy v)
  | false => fst (run health_check up drop t) = inr (Unhealthy "connection refused")
  end.
Proof. destruct up; [eexists|]; reflexivity. Qed.

(** [GET /users/{id}] on a reachable server, with ids distinct: an existing
    id answers that row and a missing id answers 404 "User not found"; the
    table is unchanged in both cases. *)
Theorem get_user_found_or_404 uid drop t :
  NoDup (map row_id (rows t)) ->
  (forall r, In r (rows t) -> row_id r = uid -> run (get_user uid) true drop t = (inr (shape r), t))
  /\ ((forall r, In r (rows t) -> row_id r <> uid) ->
      run (get_user uid) true drop t = (inl (HTTPException 404 D_user_not_found), t)).
Proof.
  intros Hnd; rewrite get_user_result; split.
  - intros r Hr Hid; rewrite (hd_filter_unique_id _ _ r Hnd Hr Hid); reflexivity.
  - intros Hno; rewrite hd_filter_none_intro; [reflexivity|].
    intros r Hr; apply Z.eqb_neq, Hno; auto.
Qed.

Lemma get_user_found_or_404_witness :
  NoDup (map row_id (rows t_ab))
  /\ ((forall r, In r (rows t_ab) -> row_id r = 2 -> run (get_user 2) true false t_ab = (inr (shape r), t_ab))
      /\ ((forall r, In r (rows t_ab) -> row_id r <> 2) ->
          run (get_user 2) true false t_ab = (inl (HTTPException 404 D_user_not_found), t_ab))).
Proof.
  assert (H : NoDup (map row_id (rows t_ab))) by (simpl; repeat constructor; simpl; lia).
  split; [exact H|]. apply (get_user_found_or_404 2 false t_ab H).
Defined.



(** [POST /users] on a reachable server when some row already has the
    username or the email: 400 "already exists", nothing written. *)
Theorem create_duplicate_rejected (u : user_create) drop t :
  (exists r, In r (rows t) /\ (row_username r = uc_username u \/ row_email r = uc_email u)) ->
  run (create_user u) true drop t = (inl (HTTPException 400 D_create_exists), t).
Proof.
  intros (r & Hr & Hdup). rewrite create_result.
  destruct (hd_filter_some (fun r => String.eqb (row_username r) (uc_username u)
                                     || String.eqb (row_email r) (uc_email u)) (rows t) r Hr)
    as [a ->]; [|reflexivity].
  apply orb_true_iff; destruct Hdup as [H|H]; [left|right]; now apply String.eqb_eq.
Qed.

Lemma create_duplicate_rejected_witness :
  (exists r, In r (rows t_ab) /\ (row_username r = "bob" \/ row_email r = "new@x.com"))
  /\ run (create_user (mkUserCreate "bob" "new@x.com")) true false t_ab
     = (inl (HTTPException 400 D_create_exists), t_ab).
Proof.
  assert (H : exists r, In r (rows t_ab) /\ (row_username r = "bob" \/ row_email r = "new@x.com")).
  { exists (mkRow 2 "bob" "b@x.com" (Some 11)); simpl; auto. }
  split; [exact H|]. apply (create_duplicate_rejected (mkUserCreate "bob" "new@x.com") false t_ab H).
Defined.

(** [POST /users] when the sequence value [next_id] is already an id in the
    table: the primary key rejects the INSERT, the handler rolls back and
    answers 500 with the store's message; the rows are unchanged, but the
    sequence value is used up ([nextval] is not rolled back). *)
Theorem create_key_collision_rolled_back (u : user_create) drop t :
  (forall r, In r (rows t) -> row_username r <> uc_username u /\ row_email r <> uc_email u) ->
  (exists r, In r (rows t) /\ row_id r = next_id t) ->
  run (create_user u) true drop t
  = (inl (HTTPException 500
            (D_create_error "duplicate key value violates unique constraint users_pkey")),
     mkTable (rows t) (next_id t + 1) (clock t)).
Proof.
  intros Hfresh (r & Hr & Hid). rewrite create_result.
  rewrite hd_filter_none_intro.
  2:{ intros r' Hr'. destruct (Hfresh r' Hr') as [H1 H2].
      apply String.eqb_neq in H1, H2; rewrite H1, H2; reflexivity. }
  replace (existsb (fun r => Z.eqb (row_id r) (next_id t)) (rows t)) with true; [reflexivity|].
  symmetry; apply existsb_exists; exists r; split; [auto|]; now apply Z.eqb_eq.
Qed.

Lemma create_key_collision_rolled_back_witness :
  (forall r, In r (rows (mkTable (rows t_ab) 2 12)) ->
     row_username r <> "carol" /\ row_email r <> "c@x.com")
  /\ (exists r, In r (rows (mkTable (rows t_ab) 2 12)) /\ row_id r = next_id (mkTable (rows t_ab) 2 12))
  /\ run (create_user (mkUserCreate "carol" "c@x.com")) true false (mkTable (rows t_ab) 2 12)
     = (inl (HTTPException 500
               (D_create_error "duplicate key value violates unique constraint users_pkey")),
        mkTable (rows t_ab) (2 + 1) 12).
Proof.
  assert (H1 : forall r, In r (rows (mkTable (rows t_ab) 2 12)) ->
                 row_username r <> "carol" /\ row_email r <> "c@x.com").
  { simpl; intros r [<-|[<-|[]]]; simpl; split; discriminate. }
  assert (H2 : exists r, In r (rows (mkTable (rows t_ab) 2 12))
                         /\ row_id r = next_id (mkTable (rows t_ab) 2 12)).
  { exists (mkRow 2 "bob" "b@x.com" (Some 11)); simpl; auto. }
  split; [exact H1|]. split; [exact H2|].
  apply (create_key_collision_rolled_back (mkUserCreate "carol" "c@x.com") false _ H1 H2).
Defined.

(** [DELETE /users/{id}] on a reachable server: a missing id answers 404
    and writes nothing; an existing id is removed (with every row carrying
    it), the request answers the id, and a following [GET /users/{id}]
    answers 404. *)
Theorem delete_then_get uid t :
  ((forall r, In r (rows t) -> row_id r <> uid) ->
   run (delete_user uid) true false t = (inl (HTTPException 404 (D_user_id_not_found uid)), t))
  /\ ((exists r, In r (rows t) /\ row_id r = uid) ->
      fst (run (delete_user uid) true false t) = inr uid
      /\ (forall r, In r (rows (snd (run (delete_user uid) true false t))) -> row_id r <> uid)
      /\ fst (run (get_user uid) true false (snd (run (delete_user uid) true false t)))
         = inl (HTTPException 404 D_user_not_found)).
Proof.
  rewrite delete_result; split.
  - intros Hno; rewrite hd_filter_none_intro; [reflexivity|].
    intros r Hr; apply Z.eqb_neq, Hno; auto.
  - intros (r & Hr & Hid).
    destruct (hd_filter_some (fun r => Z.eqb (row_id r) uid) (rows t) r Hr) as [a ->];
      [now apply Z.eqb_eq|].
    assert (Hgone : forall r', In r' (filter (fun r => negb (Z.eqb (row_id r) uid)) (rows t)) ->
                               row_id r' <> uid).
    { intros r' Hr'; apply filter_In in Hr' as [_ H]; apply negb_true_iff, Z.eqb_neq in H; auto. }
    split; [reflexivity|]. split; [exact Hgone|].
    rewrite get_user_result; simpl rows.
    rewrite hd_filter_none_intro; [reflexivity|].
    intros r' Hr'; apply Z.eqb_neq, Hgone; auto.
Qed.

(** [PATCH /users/{id}] on a reachable server for an id no row has: 404,
    whatever the body (the existence check comes first), nothing written. *)
Theorem update_missing_id_404 uid (upd : user_update) drop t :
  (forall r, In r (rows t) -> row_id r <> uid) ->
  run (update_user uid upd) true drop t = (inl (HTTPException 404 (D_user_id_not_found uid)), t).
Proof.
  intros Hno.
  unfold run, update_user, try_except, bind, execute, get_session, fetchone, ret, raise.
  cbn -[filter]. rewrite hd_filter_none_intro; [reflexivity|].
  intros r Hr; apply Z.eqb_neq, Hno; auto.
Qed.

Lemma update_missing_id_404_witness :
  (forall r, In r (rows t_ab) -> row_id r <> 7)
  /\ run (update_user 7 (mkUserUpdate None None)) true false t_ab
     = (inl (HTTPException 404 (D_user_id_not_found 7)), t_ab).
Proof.
  assert (H : forall r, In r (rows t_ab) -> row_id r <> 7).
  { simpl; intros r [<-|[<-|[]]]; simpl; lia. }
  split; [exact H|]. apply (update_missing_id_404 7 (mkUserUpdate None None) false t_ab H).
Defined.

Lemma apply_sets_created_at sets r : row_created_at (apply_sets sets r) = row_created_at r.
Proof.
  unfold apply_sets; revert r; induction sets as [|[c v] sets IH]; intros r; simpl; auto.
  rewrite IH; destruct c; reflexivity.
Qed.

(** Every [PATCH /users/{id}], whatever its outcome, leaves the ids, the
    [created_at] values and the id sequence of the table as they were: the
    UPDATE only sets [username] and [email]. *)
Theorem update_keeps_ids_and_created_at uid (upd : user_update) up drop t :
  map row_id (rows (snd (run (update_user uid upd) up drop t))) = map row_id (rows t)
  /\ map row_created_at (rows (snd (run (update_user uid upd) up drop t))) = map row_created_at (rows t)
  /\ next_id (snd (run (update_user uid upd) up drop t)) = next_id t.
Proof.
  destruct (update_effect uid upd up drop t) as [-> | (_ & _ & ->)]; [auto|].
  simpl; split; [apply map_id_update_rows|split; [|reflexivity]].
  unfold update_rows; rewrite map_map; apply map_ext; intros r.
  destruct (Z.eqb (row_id r) uid); auto using apply_sets_created_at.
Qed.

(** A successful [PATCH /users/{id}] answers the updated row: the id asked
    for, each field of the body that is set, the old value of each field
    that is not, and the row's unchanged [created_at] as a [datetime]. *)
Theorem update_success_result uid (upd : user_update) up drop t out :
  fst (run (update_user uid upd) up drop t) = inr out ->
  exists r, In r (rows t) /\ row_id r = uid
    /\ out_id out = uid
    /\ out_username out = match uu_username upd with Some x => x | None => row_username r end
    /\ out_email out = match uu_email upd with Some y => y | None => row_email r end
    /\ out_created_at out = option_map StampDatetime (row_created_at r).
Proof.
  unfold run, update_user, try_except, bind, execute, get_session, fetchone, ret, raise,
    set_work, commit, rollback.
  destruct up; cbn -[filter update_rows]; [|discriminate].
  destruct (hd_error (filter _ (rows t))); cbn -[filter update_rows]; [|discriminate].
  destruct upd as [[x|] [y|]]; cbn -[filter update_rows]; try discriminate;
    (destruct (hd_error (filter _ (rows t))); cbn -[filter update_rows]; [discriminate|]);
    (destruct drop; cbn -[filter update_rows]; [discriminate|]);
    (destruct (hd_error (filter _ (update_rows _ _ _))) as [a|] eqn:Ha; cbn -[filter update_rows];
       [|discriminate]);
    intros H; injection H as <-;
    apply hd_filter_in in Ha as [Hin Hid]; apply Z.eqb_eq in Hid;
    destruct (update_rows_in _ _ _ _ Hin Hid) as (r0 & Hr0 & ->);
    rewrite apply_sets_id in Hid; exists r0; repeat split; auto.
Qed.

Lemma update_success_result_witness :
  fst (run (update_user 1 (mkUserUpdate None (Some "al@x.com"))) true false t_ab)
    = inr (mkUserOut 1 "alice" "al@x.com" (Some (StampDatetime 10)))
  /\ exists r, In r (rows t_ab) /\ row_id r = 1
    /\ out_id (mkUserOut 1 "alice" "al@x.com" (Some (StampDatetime 10))) = 1
    /\ out_username (mkUserOut 1 "alice" "al@x.com" (Some (StampDatetime 10))) = row_username r
    /\ out_email (mkUserOut 1 "alice" "al@x.com" (Some (StampDatetime 10))) = "al@x.com"
    /\ out_created_at (mkUserOut 1 "alice" "al@x.com" (Some (StampDatetime 10)))
       = option_map StampDatetime (row_created_at r).
Proof.
  assert (H : fst (run (update_user 1 (mkUserUpdate None (Some "al@x.com"))) true false t_ab)
              = inr (mkUserOut 1 "alice" "al@x.com" (Some (StampDatetime 10)))) by (vm_compute; reflexivity).
  split; [exact H|].
  apply (update_success_result 1 (mkUserUpdate None (Some "al@x.com")) true false t_ab _ H).
Defined.

Lemma run_fst {A} (op : M A) up drop t : fst (run op up drop t) = fst (op (mkSession up drop t t)).
Proof. unfold run; destruct (op _); reflexivity. Qed.

Lemma try_except_http {A} (m : M A) (h : exn -> M A) s e :
  (forall e0 s0 e1, fst (h e0 s0) = inl e1 -> exists c d, e1 = HTTPException c d) ->
  fst (try_except m h s) = inl e -> exists c d, e = HTTPException c d.
Proof.
  intros Hh; unfold try_except; destruct (m s) as [[e0|a] s']; simpl; [apply Hh|discriminate].
Qed.

(** The handlers never let a database error through: every error that
    [get_users], [get_user], [create_user], [update_user] or [delete_user]
    answers is an [HTTPException] (the store's own errors become 500). *)
Theorem handlers_answer_http_errors up drop t e :
  (forall skip limit search, fst (run (get_users skip limit search) up drop t) = inl e ->
     exists c d, e = HTTPException c d)
  /\ (forall uid, fst (run (get_user uid) up drop t) = inl e -> exists c d, e = HTTPException c d)
  /\ (forall u, fst (run (create_user u) up drop t) = inl e -> exists c d, e = HTTPException c d)
  /\ (forall uid upd, fst (run (update_user uid upd) up drop t) = inl e ->
        exists c d, e = HTTPException c d)
  /\ (forall uid, fst (run (delete_user uid) up drop t) = inl e -> exists c d, e = HTTPException c d).
Proof.
  repeat split; intros *; rewrite run_fst;
    unfold get_users, get_user, create_user, update_user, delete_user;
    apply try_except_http;
    intros [c d|m|es] s0 e1; simpl; intros H; injection H as <-; eauto.
Qed.

(** When the server cannot be reached, every handler but the health probe
    answers 500 with the connection error, and the table is unchanged. *)
Theorem server_down_answers_500 drop t skip limit search uid u upd :
  run (get_users skip limit search) false drop t
    = (inl (HTTPException 500 (D_fetch_error "connection refused")), t)
  /\ run (get_user uid) false drop t = (inl (HTTPException 500 (D_str "connection refused")), t)
  /\ run (create_user u) false drop t
     = (inl (HTTPException 500 (D_create_error "connection refused")), t)
  /\ run (update_user uid upd) false drop t
     = (inl (HTTPException 500 (D_update_error "connection refused")), t)
  /\ run (delete_user uid) false drop t
     = (inl (HTTPException 500 (D_delete_error "connection refused")), t).
Proof. repeat split. Qed.


(** Every answer of [GET /users] has [count = min(limit, max(0, total -
    skip))]: the window holds as many of the matching rows as remain after
    [skip], up to [limit]. *)
Theorem list_count_bounds skip limit search up drop t resp :
  fst (run (get_users skip limit search) up drop t) = inr resp ->
  lr_count resp = Z.min limit (Z.max 0 (lr_total resp - skip)).
Proof.
  intros H; apply get_users_ok in H as (_ & Hk & Hl & ->); simpl.
  rewrite length_map, length_firstn, length_skipn.
  rewrite <- (Permutation_length (sort_by_id_perm _)).
  rewrite Nat2Z.inj_min, Nat2Z.inj_sub_max, !Z2Nat.id by lia. reflexivity.
Qed.

Lemma list_count_bounds_witness :
  fst (run (get_users 1 5 None) true false t_ab)
    = inr (mkListResp [mkUserOut 2 "bob" "b@x.com" (Some (StampText 11))] 1 2 1 5 false)
  /\ lr_count (mkListResp [mkUserOut 2 "bob" "b@x.com" (Some (StampText 11))] 1 2 1 5 false)
     = Z.min 5 (Z.max 0 (lr_total (mkListResp [mkUserOut 2 "bob" "b@x.com" (Some (StampText 11))] 1 2 1 5 false) - 1)).
Proof.
  assert (H : fst (run (get_users 1 5 None) true false t_ab)
              = inr (mkListResp [mkUserOut 2 "bob" "b@x.com" (Some (StampText 11))] 1 2 1 5 false))
    by (vm_compute; reflexivity).
  split; [exact H|]. apply (list_count_bounds 1 5 None true false t_ab _ H).
Defined.

(** ** The search filter against substring search *)

Lemma list_ascii_of_string_append a b :
  list_ascii_of_string (a ++ b) = app (list_ascii_of_string a) (list_ascii_of_string b).
Proof. induction a as [|c a IH]; simpl; [reflexivity|now rewrite IH]. Qed.

Lemma lower_pattern q : lower ("%" ++ q ++ "%") = "%"%char :: app (lower q) ["%"%char].
Proof. unfold lower; rewrite !list_ascii_of_string_append, !map_app; reflexivity. Qed.

Lemma lower_ascii_pct c : Ascii.eqb (lower_ascii c) "%" = Ascii.eqb c "%".
Proof. destruct c as [[] [] [] [] [] [] [] []]; reflexivity. Qed.
Lemma lower_ascii_us c : Ascii.eqb (lower_ascii c) "_" = Ascii.eqb c "_".
Proof. destruct c as [[] [] [] [] [] [] [] []]; reflexivity. Qed.
Lemma lower_ascii_bs c : Ascii.eqb (lower_ascii c) "\" = Ascii.eqb c "\".
Proof. destruct c as [[] [] [] [] [] [] [] []]; reflexivity. Qed.

Lemma like_pct p s :
  like ("%"%char :: p) s = like p s || match s with [] => false | _ :: s' => like ("%"%char :: p) s' end.
Proof. destruct s; reflexivity. Qed.

Lemma like_pct_end s : like ["%"%char] s = true.
Proof.
  induction s as [|c s IH]; [reflexivity|].
  rewrite like_pct, IH, orb_true_r; reflexivity.
Qed.

Lemma like_plain_prefix p s :
  forallb (fun c => negb (Ascii.eqb c "%" || Ascii.eqb c "_" || Ascii.eqb c "\")) p = true ->
  like (app p ["%"%char]) s = prefix_of p s.
Proof.
  revert s; induction p as [|c p IH]; intros s Hp; [apply like_pct_end|].
  simpl in Hp; apply andb_true_iff in Hp as [Hc Hp].
  apply negb_true_iff, orb_false_iff in Hc as [Hc Hbs]; apply orb_false_iff in Hc as [Hpct Hus].
  simpl app; unfold like at 1; fold like; rewrite Hpct, Hus, Hbs.
  destruct s as [|c' s]; simpl; [reflexivity|]. rewrite IH; auto.
Qed.

Lemma like_plain_contains p s :
  forallb (fun c => negb (Ascii.eqb c "%" || Ascii.eqb c "_" || Ascii.eqb c "\")) p = true ->
  like ("%"%char :: app p ["%"%char]) s = contains p s.
Proof.
  intros Hp; induction s as [|c s IH]; rewrite like_pct, like_plain_prefix by auto;
    simpl contains; [reflexivity|rewrite IH; reflexivity].
Qed.

Lemma like_nobs_prefix p s :
  forallb (fun c => negb (Ascii.eqb c "\")) p = true ->
  prefix_of p s = true -> like (app p ["%"%char]) s = true.
Proof.
  revert s; induction p as [|c p IH]; intros s Hp Hpre; [apply like_pct_end|].
  simpl in Hp; apply andb_true_iff in Hp as [Hbs Hp]; apply negb_true_iff in Hbs.
  destruct s as [|c' s]; [discriminate|].
  simpl in Hpre; apply andb_true_iff in Hpre as [Hcc Hpre]; apply Ascii.eqb_eq in Hcc; subst c'.
  simpl app; unfold like at 1; fold like.
  destruct (Ascii.eqb c "%") eqn:Hpct.
  - apply orb_true_iff; right.
    change (like ("%"%char :: app p ["%"%char]) s = true).
    rewrite like_pct, IH; auto.
  - destruct (Ascii.eqb c "_"); [apply IH; auto|]. rewrite Hbs, Ascii.eqb_refl; simpl; apply IH; auto.
Qed.

Lemma like_nobs_contains p s :
  forallb (fun c => negb (Ascii.eqb c "\")) p = true ->
  contains p s = true -> like ("%"%char :: app p ["%"%char]) s = true.
Proof.
  intros Hp; induction s as [|c s IH]; simpl contains; intros H; rewrite like_pct.
  - rewrite like_nobs_prefix; auto. now rewrite orb_false_r in H.
  - apply orb_true_iff in H as [H|H]; apply orb_true_iff; [left; apply like_nobs_prefix; auto|right; auto].
Qed.

Lemma list_where_lower q1 q2 l :
  lower q1 = lower q2 -> where_ (list_where (Some q1)) l = where_ (list_where (Some q2)) l.
Proof.
  intros Hl. unfold list_where; cbv zeta.
  assert (He : String.eqb q1 "" = String.eqb q2 "").
  { destruct q1, q2; try reflexivity; discriminate. }
  rewrite He. destruct (negb (String.eqb q2 "")); [|reflexivity].
  cbn [where_]; apply filter_ext; intros r; cbn [eval_cond].
  unfold ilike; rewrite !lower_pattern, Hl; reflexivity.
Qed.

(** [get_users]: two search strings that lowercase to the same characters
    give the same answer and the same store. *)
Theorem search_case_insensitive k lim q1 q2 up drop t :
  lower q1 = lower q2 ->
  run (get_users k lim (Some q1)) up drop t = run (get_users k lim (Some q2)) up drop t.
Proof.
  intros Hl. pose proof (list_where_lower q1 q2 (rows t) Hl) as Hw.
  unfold list_where in Hw; cbv zeta in Hw.
  unfold run, get_users, try_except, bind, execute, get_session, fetchall, scalar_int, ret, raise.
  cbv zeta. destruct up; cbn -[where_ sort_by_id firstn skipn String.append]; [|reflexivity].
  destruct (Z.ltb k 0); cbn -[where_ sort_by_id firstn skipn String.append]; [reflexivity|].
  destruct (Z.ltb lim 0); cbn -[where_ sort_by_id firstn skipn String.append]; [reflexivity|].
  rewrite Hw. reflexivity.
Qed.

Lemma plain_search_lower q :
  plain_search q = true ->
  forallb (fun c => negb (Ascii.eqb c "%" || Ascii.eqb c "_" || Ascii.eqb c "\")) (lower q) = true.
Proof.
  unfold plain_search, lower; induction (list_ascii_of_string q) as [|c l IH]; [reflexivity|].
  simpl; rewrite lower_ascii_pct, lower_ascii_us, lower_ascii_bs.
  intros H; apply andb_true_iff in H as [H1 H2]; rewrite H1, IH; auto.
Qed.

Lemma no_backslash_lower q :
  no_backslash q = true -> forallb (fun c => negb (Ascii.eqb c "\")) (lower q) = true.
Proof.
  unfold no_backslash, lower; induction (list_ascii_of_string q) as [|c l IH]; [reflexivity|].
  simpl; rewrite lower_ascii_bs.
  intros H; apply andb_true_iff in H as [H1 H2]; rewrite H1, IH; auto.
Qed.

Lemma list_where_plain q l :
  q <> "" -> plain_search q = true ->
  where_ (list_where (Some q)) l = filter (spec_search_hit q) l.
Proof.
  intros Hq Hp. unfold list_where; cbv zeta.
  apply String.eqb_neq in Hq; rewrite Hq; cbn [negb where_].
  apply filter_ext; intros r; cbn [eval_cond col_value]; unfold ilike, spec_search_hit.
  rewrite !lower_pattern, !like_plain_contains by (apply plain_search_lower; auto).
  reflexivity.
Qed.

(** [get_users]: for a non-empty search string without [%], [_] or a
    backslash, the matching rows are exactly those whose username or email
    contains it case-insensitively, for the total and for the page. *)
Theorem search_plain_is_substring skip limit q up drop t resp :
  q <> "" -> plain_search q = true ->
  fst (run (get_users skip limit (Some q)) up drop t) = inr resp ->
  let matching := filter (spec_search_hit q) (rows t) in
  lr_total resp = Z.of_nat (length matching) /\
  lr_users resp = map shape (firstn (Z.to_nat limit) (skipn (Z.to_nat skip) (sort_by_id matching))).
Proof.
  intros Hq Hp H. apply get_users_ok in H as (_ & _ & _ & H). cbv zeta in H.
  rewrite list_where_plain in H by auto. subst resp; split; reflexivity.
Qed.

(** [get_users]: for a search string without a backslash, every row whose
    username or email contains it case-insensitively passes the WHERE clause
    of both statements, so it is among the rows [total] counts and the rows
    the page is cut from (wildcards can only add rows). *)
Theorem search_counts_every_substring_hit skip limit q up drop t resp :
  no_backslash q = true ->
  fst (run (get_users skip limit (Some q)) up drop t) = inr resp ->
  let matching := where_ (list_where (Some q)) (rows t) in
  lr_total resp = Z.of_nat (length matching)
  /\ lr_users resp = map shape (firstn (Z.to_nat limit) (skipn (Z.to_nat skip) (sort_by_id matching)))
  /\ (forall r, In r (rows t) -> spec_search_hit q r = true -> In r matching).
Proof.
  intros Hb H. apply get_users_ok in H as (_ & _ & _ & H). cbv zeta in *. subst resp.
  split; [reflexivity|]. split; [reflexivity|].
  intros r Hin Hr. unfold list_where; cbv zeta.
  destruct (String.eqb q "") eqn:Hq; cbn [negb where_]; [exact Hin|].
  apply filter_In; split; [exact Hin|].
  cbn [eval_cond col_value]; unfold ilike; rewrite lower_pattern.
  unfold spec_search_hit in Hr; apply orb_true_iff in Hr as [Hr|Hr]; apply orb_true_iff;
    [left|right]; apply like_nobs_contains; auto; apply no_backslash_lower; auto.
Qed.

Lemma search_case_insensitive_witness :
  lower "ALI" = lower "ali" /\
  run (get_users 0 100 (Some "ALI")) true false t_ab
  = run (get_users 0 100 (Some "ali")) true false t_ab.
Proof.
  assert (H : lower "ALI" = lower "ali") by reflexivity.
  split; [exact H|]. apply (search_case_insensitive 0 100 "ALI" "ali" true false t_ab H).
Defined.

Lemma search_plain_is_substring_witness :
  fst (run (get_users 0 100 (Some "ALI")) true false t_ab)
    = inr (mkListResp [mkUserOut 1 "alice" "a@x.com" (Some (StampText 10))] 1 1 0 100 false)
  /\ (let matching := filter (spec_search_hit "ALI") (rows t_ab) in
      lr_total (mkListResp [mkUserOut 1 "alice" "a@x.com" (Some (StampText 10))] 1 1 0 100 false)
        = Z.of_nat (length matching) /\
      lr_users (mkListResp [mkUserOut 1 "alice" "a@x.com" (Some (StampText 10))] 1 1 0 100 false)
        = map shape (firstn (Z.to_nat 100) (skipn (Z.to_nat 0) (sort_by_id matching)))).
Proof.
  assert (H : fst (run (get_users 0 100 (Some "ALI")) true false t_ab)
              = inr (mkListResp [mkUserOut 1 "alice" "a@x.com" (Some (StampText 10))] 1 1 0 100 false))
    by (vm_compute; reflexivity).
  split; [exact H|].
  apply (search_plain_is_substring 0 100 "ALI" true false t_ab _); [discriminate|reflexivity|exact H].
Defined.

Lemma search_counts_every_substring_hit_witness :
  no_backslash "X.COM" = true /\
  fst (run (get_users 0 100 (Some "X.COM")) true false t_ab)
    = inr (mkListResp [mkUserOut 1 "alice" "a@x.com" (Some (StampText 10)); mkUserOut 2 "bob" "b@x.com" (Some (StampText 11))] 2 2 0 100 false)
  /\ (let matching := where_ (list_where (Some "X.COM")) (rows t_ab) in
      lr_total (mkListResp [mkUserOut 1 "alice" "a@x.com" (Some (StampText 10)); mkUserOut 2 "bob" "b@x.com" (Some (StampText 11))] 2 2 0 100 false) = Z.of_nat (length matching)
      /\ lr_users (mkListResp [mkUserOut 1 "alice" "a@x.com" (Some (StampText 10)); mkUserOut 2 "bob" "b@x.com" (Some (StampText 11))] 2 2 0 100 false)
         = map shape (firstn (Z.to_nat 100) (skipn (Z.to_nat 0) (sort_by_id matching)))
      /\ (forall r, In r (rows t_ab) -> spec_search_hit "X.COM" r = true -> In r matching)).
Proof.
  assert (Hb : no_backslash "X.COM" = true) by reflexivity.
  assert (H : fst (run (get_users 0 100 (Some "X.COM")) true false t_ab)
              = inr (mkListResp [mkUserOut 1 "alice" "a@x.com" (Some (StampText 10)); mkUserOut 2 "bob" "b@x.com" (Some (StampText 11))] 2 2 0 100 false))
    by (vm_compute; reflexivity).
  split; [exact Hb|]. split; [exact H|].
  apply (search_counts_every_substring_hit 0 100 "X.COM" true false t_ab _ Hb H).
Defined.

(** [UserUpdate]: a body is refused exactly when a present, non-null field
    is malformed (a body whose fields are all absent, null or well formed is
    accepted); the error lists each failing field and the session is
    untouched; an accepted body carries the given username and the
    normalised email, [null] and absence both giving [None]. *)
Theorem update_validation_reports_all email_check b :
  ((exists errs, validate_update email_check b = inl errs)
     <-> username_update_ok b = false \/ email_update_ok email_check b = false)
  /\ match validate_update email_check b with
  | inl errs =>
      (In Col_username (map verr_loc errs) <-> username_update_ok b = false)
      /\ (In Col_email (map verr_loc errs) <-> email_update_ok email_check b = false)
      /\ forall uid s, update_request email_check uid b s = (inl (RequestValidationError errs), s)
  | inr u =>
      username_update_ok b = true /\ email_update_ok email_check b = true
      /\ uu_username u = match p_username b with Some (JStr x) => Some x | _ => None end
      /\ uu_email u = match p_email b with Some (JStr x) => email_check x | _ => None end
  end.
Proof.
  split.
  { unfold validate_update, validate_opt, validate_str, validate_email,
      username_update_ok, email_update_ok.
    destruct (p_username b) as [[]|], (p_email b) as [[x| | | ]|]; try destruct (email_check x);
    simpl; split; (intros [? H] || intros [H|H]); try discriminate; eauto. }
  destruct (validate_update email_check b) as [errs|u] eqn:H.
  - split; [|split]; [| |intros uid s; unfold update_request; rewrite H; reflexivity];
    unfold validate_update, validate_opt, validate_str, validate_email,
      username_update_ok, email_update_ok in *;
    destruct (p_username b) as [[]|], (p_email b) as [[x| | | ]|]; try destruct (email_check x);
    simpl in *; inversion H; subst; simpl; intuition discriminate.
  - unfold validate_update, validate_opt, validate_str, validate_email,
      username_update_ok, email_update_ok in *.
    destruct (p_username b) as [[]|], (p_email b) as [[x| | | ]|]; try destruct (email_check x) eqn:Ex;
    simpl in *; inversion H; subst; simpl; auto.
Qed.
